(** * The resistor-color-duo analyzer

    A shallow embedding of [src/analyzers/resistor-color-duo/index.ts]:
    the [ResistorColorDuoAnalyzer] class, its memoised fact getters, its
    three checks and the pattern matchers, followed by the properties the
    specification states about the verdict engine. *)

From stdpp Require Import base option list strings gmap.

Set Default Proof Using "Type".

(** ** Syntax-tree facts

    Only the node tags the analyzer compares against are needed; the
    remaining tags stand for the initializer and parameter shapes that
    occur in the fixture corpus. *)

Inductive AST_NODE_TYPES :=
  | ArrayExpression
  | ArrowFunctionExpression
  | FunctionExpression
  | ObjectExpression
  | NewExpression
  | CallExpression
  | Literal
  | Identifier
  | AssignmentPattern
  | RestElement
  | ArrayPattern
  | ObjectPattern.

#[global] Instance AST_NODE_TYPES_eq_dec : EqDecision AST_NODE_TYPES.
Proof. solve_decision. Defined.

(** Initializer expressions of top-level declarators, one level deep: the
    elements of an array and the keys and values of an object literal are
    kept as source text.  Function bodies are never inspected by this
    analyzer and are left out. *)
Inductive Expression :=
  | EArray (elements : list string)
  | EObject (properties : list (string * string))
  | ENew (callee : string)
  | ECall (callee : string)
  | ELiteral (raw : string)
  | EIdentifier (name : string)
  | EArrowFunction
  | EFunction.

#[global] Instance Expression_eq_dec : EqDecision Expression.
Proof. solve_decision. Defined.

(** The [type] field of an expression node. *)
Definition node_type (e : Expression) : AST_NODE_TYPES :=
  match e with
  | EArray _ => ArrayExpression
  | EObject _ => ObjectExpression
  | ENew _ => NewExpression
  | ECall _ => CallExpression
  | ELiteral _ => Literal
  | EIdentifier _ => Identifier
  | EArrowFunction => ArrowFunctionExpression
  | EFunction => FunctionExpression
  end.

(** Modelled from the spec: the declaration of [ProgramConstant] (module
    [find_top_level_constants]) is not part of the sources.  Following the
    data model of the specification a top-level constant has a name and a
    declared kind; its initializer is nullable, as the non-null assertion of
    [c.init!.type] shows: a declarator such as [let cache;] has none. *)
Record ProgramConstant := {
  constant_id : string;
  kind : string;
  init : option Expression }.

(** The node tag of the initializer of a constant, if it has one. *)
Definition init_type (c : ProgramConstant) : option AST_NODE_TYPES :=
  node_type <$> init c.

(** The callbacks of the two filters of the constants check, applied to the
    initializer of a constant; a constant without initializer passes
    neither. *)
Definition test_init (test : AST_NODE_TYPES → bool) (c : ProgramConstant) : bool :=
  match init c with
  | Some e => test (node_type e)
  | None => false
  end.

#[global] Instance ProgramConstant_eq_dec : EqDecision ProgramConstant.
Proof. solve_decision. Defined.

(** Modelled from the spec: the declaration of the parameter nodes and the
    accessors [parameterName] and [annotateType] are not part of the sources.
    A parameter has a kind (its node tag), a name and an optional type
    annotation; [annotateType] renders a missing annotation as "untyped". *)
Record Param := {
  param_type : AST_NODE_TYPES;
  param_name : string;
  typeAnnotation : option string }.

Definition parameterName (p : Param) : string := param_name p.

Definition annotateType (annotation : option string) : string :=
  match annotation with
  | Some t => t
  | None => "untyped"
  end.

(** Modelled from the spec: the declaration of [MainMethod] (module
    [extract_main_method]) is not part of the sources.  The exported function
    carries its identifier, which [method.id!.name] reads, and its parameter
    list. *)
Record MainMethod := {
  id : string;
  params : list Param }.

Record ExportSpecifier := {
  local : string;
  exported : string }.

(** The export statement found for a name; only its specifier list is read. *)
Record ExportNamedDeclaration := {
  specifiers : list ExportSpecifier }.

(** ** Comments and analyzer output *)

Inductive CommentTemplate :=
  | NoMethod
  | NoNamedExport
  | NoParameter
  | UnexpectedSplatArgs
  | TipExportInline.

#[global] Instance CommentTemplate_eq_dec : EqDecision CommentTemplate.
Proof. solve_decision. Defined.

(** A comment is a template identifier with the mapping that is interpolated
    into it. *)
Record Comment := {
  template : CommentTemplate;
  variables : gmap string string }.

#[global] Instance Comment_eq_dec : EqDecision Comment.
Proof. solve_decision. Defined.

(** The comment factories of [~src/comments/shared] and the tip declared at
    the top of the analyzer. *)
Definition NO_METHOD (vars : gmap string string) : Comment :=
  {| template := NoMethod; variables := vars |}.
Definition NO_NAMED_EXPORT (vars : gmap string string) : Comment :=
  {| template := NoNamedExport; variables := vars |}.
Definition NO_PARAMETER (vars : gmap string string) : Comment :=
  {| template := NoParameter; variables := vars |}.
Definition UNEXPECTED_SPLAT_ARGS (vars : gmap string string) : Comment :=
  {| template := UnexpectedSplatArgs; variables := vars |}.
Definition TIP_EXPORT_INLINE : Comment :=
  {| template := TipExportInline; variables := ∅ |}.

(** The external key under which the tip is registered. *)
Definition TIP_EXPORT_INLINE_key : string :=
  "javascript.resistor-color-duo.export_inline".

Inductive Severity := blocking | advisory.

#[global] Instance Severity_eq_dec : EqDecision Severity.
Proof. solve_decision. Defined.

(** Modelled from the spec: the severity class of a comment is not a field in
    the sources.  The inline-export tip is the only advisory comment; the
    structural and signature comments are blocking. *)
Definition severity (c : Comment) : Severity :=
  match template c with
  | TipExportInline => advisory
  | _ => blocking
  end.

Definition is_blocking (c : Comment) : bool :=
  bool_decide (severity c = blocking).

Inductive Verdict := Approved | Disapproved | ReferredToMentor.

#[global] Instance Verdict_eq_dec : EqDecision Verdict.
Proof. solve_decision. Defined.

(** Modelled from the spec: [AnalyzerOutput] belongs to the base class, which
    is not part of the sources.  An output carries the verdict and the
    ordered, append-only comment list; referral to a mentor is the verdict of
    a run in which nothing was decided. *)
Record AnalyzerOutput := {
  status : Verdict;
  comments : list Comment }.

Definition new_AnalyzerOutput : AnalyzerOutput :=
  {| status := ReferredToMentor; comments := [] |}.

(** ** Completions

    A method either returns, or leaves by an exception: the early
    finalization raised by [approve] and [disapprove], a [TypeError] raised by
    reading a property of [undefined], or the failure of the parser. *)

Inductive Thrown := EarlyFinalization | TypeError | ParseFailure.

Inductive Completion (A : Type) :=
  | Normal (a : A)
  | Throw (e : Thrown).
Arguments Normal {A} a.
Arguments Throw {A} e.

Record ParsedSource (Program : Type) := {
  parsed_program : Program;
  parsed_source : string }.
Arguments parsed_program {Program} _.
Arguments parsed_source {Program} _.

(** The collaborators the analyzer imports: the parser and the three fact
    extractors.  They are pure functions of the tree; the parser fails on
    source text that is not a program. *)
Class Collaborators (Input Program : Type) := {
  parse : Input → option (ParsedSource Program);
  extractMainMethod : Program → string → option MainMethod;
  extractExport : Program → string → option ExportNamedDeclaration;
  findTopLevelConstants : Program → list string → list ProgramConstant }.

(** ** The analyzer instance *)

Section Analyzer.
Context {Input Program : Type} `{!Collaborators Input Program}.

(** The fields of a [ResistorColorDuoAnalyzer]: the output owned by the base
    class, the parsed program and its source, and the three memoised facts.
    A field that is still [undefined] is [None]; [_mainExport] caches the
    whole tuple returned by [extractExport], so once set it is truthy even
    when its first component is [undefined]. *)
Record ResistorColorDuoAnalyzer := {
  output : AnalyzerOutput;
  program : option Program;
  source : option string;
  _mainMethod : option MainMethod;
  _mainExport : option (option ExportNamedDeclaration);
  _mainConstants : option (list ProgramConstant) }.

Definition new_ResistorColorDuoAnalyzer : ResistorColorDuoAnalyzer :=
  {| output := new_AnalyzerOutput; program := None; source := None;
     _mainMethod := None; _mainExport := None; _mainConstants := None |}.

Definition set_output (o : AnalyzerOutput) (this : ResistorColorDuoAnalyzer) :=
  {| output := o; program := program this; source := source this;
     _mainMethod := _mainMethod this; _mainExport := _mainExport this;
     _mainConstants := _mainConstants this |}.

Definition set_parsed (p : ParsedSource Program) (this : ResistorColorDuoAnalyzer) :=
  {| output := output this; program := Some (parsed_program p);
     source := Some (parsed_source p);
     _mainMethod := _mainMethod this; _mainExport := _mainExport this;
     _mainConstants := _mainConstants this |}.

Definition set_mainMethod (m : option MainMethod) (this : ResistorColorDuoAnalyzer) :=
  {| output := output this; program := program this; source := source this;
     _mainMethod := m; _mainExport := _mainExport this;
     _mainConstants := _mainConstants this |}.

Definition set_mainExport (e : option ExportNamedDeclaration) (this : ResistorColorDuoAnalyzer) :=
  {| output := output this; program := program this; source := source this;
     _mainMethod := _mainMethod this; _mainExport := Some e;
     _mainConstants := _mainConstants this |}.

Definition set_mainConstants (cs : list ProgramConstant) (this : ResistorColorDuoAnalyzer) :=
  {| output := output this; program := program this; source := source this;
     _mainMethod := _mainMethod this; _mainExport := _mainExport this;
     _mainConstants := Some cs |}.

(** A method of the class: a computation over the instance that returns or
    throws. *)
Definition Method (A : Type) : Type :=
  ResistorColorDuoAnalyzer → Completion A * ResistorColorDuoAnalyzer.

#[global] Instance Method_ret : MRet Method :=
  λ A a this, (Normal a, this).

#[global] Instance Method_bind : MBind Method :=
  λ A B k m this,
    match m this with
    | (Normal a, this') => k a this'
    | (Throw e, this') => (Throw e, this')
    end.

Definition throw {A : Type} (e : Thrown) : Method A :=
  λ this, (Throw e, this).

(** *** Base-class primitives *)

(** Modelled from the spec: [comment] of the base class [AnalyzerImpl], which
    is not part of the sources.  Comments are append-only; a call without a
    comment records nothing. *)
Definition comment (c : option Comment) : Method unit :=
  λ this,
    match c with
    | None => (Normal (), this)
    | Some c =>
        (Normal (),
         set_output {| status := status (output this);
                       comments := comments (output this) ++ [c] |} this)
    end.

(** Modelled from the spec: [hasCommentary] of the base class [AnalyzerImpl]:
    whether a comment has been recorded in this run. *)
Definition hasCommentary : Method bool :=
  λ this, (Normal (bool_decide (comments (output this) ≠ [])), this).

(** Modelled from the spec: the terminal step shared by [approve] and
    [disapprove] of the base class [AnalyzerImpl]: the output takes its
    verdict and the run is left by throwing the early finalization. *)
Definition finalize {A : Type} (v : Verdict) : Method A :=
  λ this,
    (Throw EarlyFinalization,
     set_output {| status := v; comments := comments (output this) |} this).

(** Modelled from the spec: [disapprove] of the base class [AnalyzerImpl]:
    records the comment, if one is given, resolves the run to Disapproved and
    leaves by early finalization, so that no later check executes. *)
Definition disapprove {A : Type} (c : option Comment) : Method A :=
  comment c;; finalize Disapproved.

(** Modelled from the spec: [approve] of the base class [AnalyzerImpl]:
    records the comment, if one is given, resolves the run to Approved and
    leaves by early finalization. *)
Definition approve {A : Type} (c : option Comment) : Method A :=
  comment c;; finalize Approved.

(** *** Memoised getters

    Each getter extracts its fact from [this.program] unless the private
    field is already truthy.  The extractors are applied to the program the
    instance holds; [execute] assigns it before any getter is read, and a
    read on an instance without a program is taken to throw. *)

Definition mainMethod : Method (option MainMethod) :=
  λ this,
    match _mainMethod this with
    | Some m => (Normal (Some m), this)
    | None =>
        match program this with
        | Some p =>
            let m := extractMainMethod p "value" in
            (Normal m, set_mainMethod m this)
        | None => (Throw TypeError, this)
        end
    end.

Definition mainExport : Method (option ExportNamedDeclaration) :=
  λ this,
    match _mainExport this with
    | Some e => (Normal e, this)
    | None =>
        match program this with
        | Some p =>
            let e := extractExport p "value" in
            (Normal e, set_mainExport e this)
        | None => (Throw TypeError, this)
        end
    end.

Definition mainConstants : Method (list ProgramConstant) :=
  λ this,
    match _mainConstants this with
    | Some cs => (Normal cs, this)
    | None =>
        match program this with
        | Some p =>
            let cs := findTopLevelConstants p ["let"; "const"; "var"] in
            (Normal cs, set_mainConstants cs this)
        | None => (Throw TypeError, this)
        end
    end.

(** *** The checks *)

Definition checkStructure : Method unit :=
  method ← mainMethod;
  functionDeclaration ← mainExport;
  match method with
  | None => comment (Some (NO_METHOD {[ "method.name" := "value" ]}))
  | Some _ => mret ()
  end;;
  match functionDeclaration with
  | None => comment (Some (NO_NAMED_EXPORT {[ "export.name" := "value" ]}))
  | Some _ => mret ()
  end;;
  commentary ← hasCommentary;
  if (commentary : bool) then disapprove None else mret ().

(** [this.mainMethod!] only silences the type checker: on an absent method
    the read of [method.params] throws, and so does the read of
    [firstParameter.type] on an empty parameter list. *)
Definition checkSignature : Method unit :=
  method ← mainMethod;
  match method with
  | None => throw TypeError
  | Some method =>
      (if bool_decide (length (params method) = 0)
       then disapprove (Some (NO_PARAMETER {[ "function.name" := id method ]}))
       else mret () : Method unit);;
      match params method !! 0 with
      | None => throw TypeError
      | Some firstParameter =>
          if bool_decide (param_type firstParameter = RestElement)
          then
            let splatArgName := parameterName firstParameter in
            let splatArgType := annotateType (typeAnnotation firstParameter) in
            disapprove (Some (UNEXPECTED_SPLAT_ARGS
              {[ "splat-arg.name" := splatArgName;
                 "parameter.type" := splatArgType ]}))
          else mret ()
      end
  end.

(** [specifiers] is an array and therefore truthy, so the conjunction is
    decided by its right operand; both operands read the getter. *)
Definition hasInlineExport : Method bool :=
  left ← mainExport;
  match left with
  | None => throw TypeError
  | Some _ =>
      right ← mainExport;
      match right with
      | None => throw TypeError
      | Some declaration =>
          mret (bool_decide (length (specifiers declaration) = 0))
      end
  end.

Definition checkForTips : Method unit :=
  inline ← hasInlineExport;
  if negb (inline : bool) then comment (Some TIP_EXPORT_INLINE) else mret ().

Definition acceptableTypes : list AST_NODE_TYPES :=
  [ArrayExpression; FunctionExpression; ArrowFunctionExpression].

(** [constants.filter((c) => test(c.init!.type))]: the callback is applied to
    the elements in turn and reads [c.init!.type]; on the first element
    without initializer that read throws a [TypeError], which ends the
    filter. *)
Fixpoint filter_by_init_type (test : AST_NODE_TYPES → bool)
    (constants : list ProgramConstant) : Method (list ProgramConstant) :=
  match constants with
  | [] => mret []
  | c :: rest =>
      match init c with
      | None => throw TypeError
      | Some e =>
          kept ← filter_by_init_type test rest;
          mret (if test (node_type e) then c :: kept else kept)
      end
  end.

Definition is_array_type (t : AST_NODE_TYPES) : bool :=
  bool_decide (t = ArrayExpression).

Definition is_not_acceptable_type (t : AST_NODE_TYPES) : bool :=
  bool_decide (t ∉ acceptableTypes).

Definition isUsingOptimalConstants : Method bool :=
  constants ← mainConstants;
  arrays ← filter_by_init_type is_array_type constants;
  if bool_decide (length arrays ≠ 1)
  then mret false
  else
    constants ← mainConstants;
    others ← filter_by_init_type is_not_acceptable_type constants;
    if bool_decide (0 < length others)
    then mret false
    else mret true.

(** The two pattern matchers that [checkForOptimalSolutions] consults.  The
    verdict engine is written against this interface; the bodies found in the
    source are the instance [source_matchers] below. *)
Class PatternMatchers := {
  isOptimalMapJoinImplementation : Method bool;
  isOptimalReduceImplementation : Method bool }.

(** The matcher bodies as they stand in the source: the map-join matcher
    returns [false] after the constants check ("still unimplemented"), and
    the reduce matcher returns [false]. *)
#[global] Instance source_matchers : PatternMatchers := {|
  isOptimalMapJoinImplementation :=
    optimalConstants ← isUsingOptimalConstants;
    if negb optimalConstants then mret false else mret false;
  isOptimalReduceImplementation := mret false |}.

Section VerdictEngine.
Context {matchers : PatternMatchers}.

(** [!mapJoin && !reduce]: the reduce matcher is consulted only when the
    map-join matcher did not match.  The log line of the non-optimal branch
    has no effect on the output and is left out. *)
Definition checkForOptimalSolutions : Method unit :=
  mapJoin ← isOptimalMapJoinImplementation;
  notOptimal ←
    (if negb mapJoin
     then reduce ← isOptimalReduceImplementation; mret (negb reduce)
     else mret false);
  if (notOptimal : bool)
  then mret ()
  else checkForTips;; approve None.

Definition execute (input : Input) : Method unit :=
  match parse input with
  | None => throw ParseFailure
  | Some parsed =>
      (λ this, (Normal (), set_parsed parsed this));;
      checkStructure;;
      checkSignature;;
      checkForOptimalSolutions
  end.

(** Modelled from the spec: [run] of the base class [AnalyzerImpl]: one run
    starts from a fresh output, executes the checks, and delivers the output
    when they return or finalize early; any other exception is propagated to
    the caller. *)
Definition run (input : Input) (this : ResistorColorDuoAnalyzer)
  : Completion AnalyzerOutput * ResistorColorDuoAnalyzer :=
  match execute input (set_output new_AnalyzerOutput this) with
  | (Normal _, this') => (Normal (output this'), this')
  | (Throw EarlyFinalization, this') => (Normal (output this'), this')
  | (Throw e, this') => (Throw e, this')
  end.

End VerdictEngine.

End Analyzer.

Arguments ResistorColorDuoAnalyzer : clear implicits.
Arguments Method : clear implicits.
Arguments PatternMatchers : clear implicits.

(** ** Submissions

    A submission presented by its source text together with the facts the
    extractors find in it.  This instance of the collaborators serves to run
    the analyzer on concrete submissions. *)

Record Submission := {
  submission_source : string;
  value_method : option MainMethod;
  value_export : option ExportNamedDeclaration;
  top_level_declarators : list ProgramConstant }.

#[global] Instance submission_collaborators : Collaborators Submission Submission := {|
  parse s :=
    Some {| parsed_program := s; parsed_source := submission_source s |};
  extractMainMethod s name :=
    if decide (name = "value") then value_method s else None;
  extractExport s name :=
    if decide (name = "value") then value_export s else None;
  findTopLevelConstants s kinds :=
    filter (λ c, kind c ∈ kinds) (top_level_declarators s) |}.

(** What the parser delivers for a submission. *)
Definition parsed_of (s : Submission) : ParsedSource Submission :=
  {| parsed_program := s; parsed_source := submission_source s |}.

(** The instance on which the checks start in a run on a submission. *)
Definition started (s : Submission) : ResistorColorDuoAnalyzer Submission :=
  set_parsed (parsed_of s) new_ResistorColorDuoAnalyzer.

Definition canonical_colors : list string :=
  ["black"; "brown"; "red"; "orange"; "yellow";
   "green"; "blue"; "violet"; "grey"; "white"].

Definition plain (name : string) : Param :=
  {| param_type := Identifier; param_name := name; typeAnnotation := None |}.

Definition const (name : string) (e : Expression) : ProgramConstant :=
  {| constant_id := name; kind := "const"; init := Some e |}.

Definition inline_export : ExportNamedDeclaration := {| specifiers := [] |}.

Definition export_list (names : list string) : ExportNamedDeclaration :=
  {| specifiers := (λ n, {| local := n; exported := n |}) <$> names |}.

(** Fixture 307: an array table, a lookup helper and an inline-exported
    [value] that maps, joins and converts with [Number]. *)
Definition fixture_307 : Submission := {|
  submission_source :=
    "const COLORS = ['black', 'brown', 'red', 'orange', 'yellow', 'green', 'blue', 'violet', 'grey', 'white'];
const colorCode = (color) => COLORS.indexOf(color);

export const value = (input) => Number(input.map(color => colorCode(color)).join(''));";
  value_method := Some {| id := "value"; params := [plain "input"] |};
  value_export := Some inline_export;
  top_level_declarators :=
    [const "COLORS" (EArray canonical_colors);
     const "colorCode" EArrowFunction;
     const "value" EArrowFunction] |}.

(** The reduce variant written out in the comment of
    [isOptimalReduceImplementation], over the same table and helper. *)
Definition reduce_submission : Submission := {|
  submission_source :=
    "const COLORS = ['black', 'brown', 'red', 'orange', 'yellow', 'green', 'blue', 'violet', 'grey', 'white'];
const colorCode = (color) => COLORS.indexOf(color);

export function value(colors) {
  return colors
    .reverse()
    .reduce((value, color, i) => {
      return colorCode(color) * (10 ** i) + value
    }, 0)
}";
  value_method := Some {| id := "value"; params := [plain "colors"] |};
  value_export := Some inline_export;
  top_level_declarators :=
    [const "COLORS" (EArray canonical_colors);
     const "colorCode" EArrowFunction] |}.

(** The map-join solution of the comment of [isOptimalMapJoinImplementation],
    exported through a separate export list. *)
Definition export_list_submission : Submission := {|
  submission_source :=
    "const COLORS = ['black', 'brown', 'red', 'orange', 'yellow', 'green', 'blue', 'violet', 'grey', 'white'];

function colorCode(color) {
  return COLORS.indexOf(color)
}

function value(colors) {
  return Number(colors.map(colorCode).join(''))
}

export { value }";
  value_method := Some {| id := "value"; params := [plain "colors"] |};
  value_export := Some (export_list ["value"]);
  top_level_declarators := [const "COLORS" (EArray canonical_colors)] |}.

(** An object-literal table keyed by the ten colour names, with an
    inline-exported map-join [value]. *)
Definition object_table_submission : Submission := {|
  submission_source :=
    "const colorCodes =
{
    black: 0,
    brown: 1,
    red: 2,
    orange: 3,
    yellow: 4,
    green: 5,
    blue: 6,
    violet: 7,
    grey: 8,
    white: 9,
}

export const value = colors => Number(colors.map(color => colorCodes[color]).join(''));";
  value_method := Some {| id := "value"; params := [plain "colors"] |};
  value_export := Some inline_export;
  top_level_declarators :=
    [const "colorCodes"
       (EObject (zip canonical_colors
                   ["0"; "1"; "2"; "3"; "4"; "5"; "6"; "7"; "8"; "9"]));
     const "value" EArrowFunction] |}.

(** Fixture 306 (its string literals written with apostrophes): [value] is a
    method of the object assigned to [module.exports]; nothing is exported by
    name. *)
Definition fixture_306 : Submission := {|
  submission_source :=
    "const COLORS = ['black','brown','red','orange','yellow','green','blue','violet','grey','white'];

module.exports = {
    value(input) {
        const numbers = input.map(color => COLORS.indexOf(color));
        return parseInt(numbers.join(''));
    }
}";
  value_method := Some {| id := "value"; params := [plain "input"] |};
  value_export := None;
  top_level_declarators := [const "COLORS" (EArray canonical_colors)] |}.

Definition no_parameter_submission : Submission := {|
  submission_source := "export function value() { return 0 }";
  value_method := Some {| id := "value"; params := [] |};
  value_export := Some inline_export;
  top_level_declarators := [] |}.

Definition splat_submission : Submission := {|
  submission_source := "export function value(...colors) { return 0 }";
  value_method :=
    Some {| id := "value";
            params := [{| param_type := RestElement; param_name := "colors";
                          typeAnnotation := None |}] |};
  value_export := Some inline_export;
  top_level_declarators := [] |}.

Definition empty_submission : Submission := {|
  submission_source := "// no code";
  value_method := None;
  value_export := None;
  top_level_declarators := [] |}.

(** An export named [value] that is not bound to a function. *)
Definition exported_number_submission : Submission := {|
  submission_source := "export const value = 5;";
  value_method := None;
  value_export := Some inline_export;
  top_level_declarators := [const "value" (ELiteral "5")] |}.

(** A map-join submission with a top-level declarator that has no
    initializer. *)
Definition uninitialised_submission : Submission := {|
  submission_source :=
    "let cache;
const COLORS = ['black', 'brown', 'red', 'orange', 'yellow', 'green', 'blue', 'violet', 'grey', 'white'];

export const value = (colors) => Number(colors.map(color => COLORS.indexOf(color)).join(''));";
  value_method := Some {| id := "value"; params := [plain "colors"] |};
  value_export := Some inline_export;
  top_level_declarators :=
    [{| constant_id := "cache"; kind := "let"; init := None |};
     const "COLORS" (EArray canonical_colors);
     const "value" EArrowFunction] |}.

(** ** The verdict state machine as a function of the facts

    The ordered checks of the specification, written as a function of the
    two structural facts and of whether an optimal pattern matched.  The
    analyzer is compared with it below. *)

Definition structure_comments
    (method : option MainMethod) (declaration : option ExportNamedDeclaration)
  : list Comment :=
  match method with
  | None => [NO_METHOD {[ "method.name" := "value" ]}]
  | Some _ => []
  end ++
  match declaration with
  | None => [NO_NAMED_EXPORT {[ "export.name" := "value" ]}]
  | Some _ => []
  end.

Definition signature_comments (method : MainMethod) : list Comment :=
  match params method with
  | [] => [NO_PARAMETER {[ "function.name" := id method ]}]
  | first :: _ =>
      if bool_decide (param_type first = RestElement)
      then [UNEXPECTED_SPLAT_ARGS
              {[ "splat-arg.name" := parameterName first;
                 "parameter.type" := annotateType (typeAnnotation first) ]}]
      else []
  end.

Definition tip_comments (declaration : ExportNamedDeclaration) : list Comment :=
  match specifiers declaration with
  | [] => []
  | _ :: _ => [TIP_EXPORT_INLINE]
  end.

Definition verdict_machine
    (method : option MainMethod) (declaration : option ExportNamedDeclaration)
    (optimal : bool) : AnalyzerOutput :=
  match method, declaration with
  | Some m, Some d =>
      match signature_comments m with
      | [] =>
          if optimal
          then {| status := Approved; comments := tip_comments d |}
          else {| status := ReferredToMentor; comments := [] |}
      | cs => {| status := Disapproved; comments := cs |}
      end
  | _, _ =>
      {| status := Disapproved; comments := structure_comments method declaration |}
  end.

(** The constants condition as a predicate on the list of top-level
    constants: exactly one array, and nothing but arrays and functions. *)
Definition single_array_table (constants : list ProgramConstant) : Prop :=
  length (filter (λ c, init_type c = Some ArrayExpression) constants) = 1 ∧
  Forall (λ c, ∃ t, init_type c = Some t ∧ t ∈ acceptableTypes) constants.

(** An object literal whose keys are the ten colour names in order. *)
Definition canonical_object_table (e : option Expression) : Prop :=
  match e with
  | Some (EObject properties) => properties.*1 = canonical_colors
  | _ => False
  end.

(** A function-like initializer. *)
Definition function_like (e : option Expression) : Prop :=
  node_type <$> e = Some FunctionExpression ∨
  node_type <$> e = Some ArrowFunctionExpression.

(** The shape of a submission whose lookup table is an object literal: one
    top-level constant is a canonical object table and every other one is
    function-like. *)
Definition object_table_only (constants : list ProgramConstant) : Prop :=
  ∃ table, table ∈ constants ∧ canonical_object_table (init table) ∧
           ∀ c, c ∈ constants → c ≠ table → function_like (init c).

(** Every constant has an initializer. *)
Definition initialised (cs : list ProgramConstant) : bool :=
  forallb (λ c, bool_decide (is_Some (init c))) cs.

(** The constants condition as a boolean: every constant is initialised,
    exactly one initializer is an array, and none is anything but an array
    or a function. *)
Definition optimal_constants (cs : list ProgramConstant) : bool :=
  initialised cs
  && bool_decide (length (filter (λ c, test_init is_array_type c) cs) = 1)
  && bool_decide (length (filter (λ c, test_init is_not_acceptable_type c) cs) = 0).

(** What the constants check does on the constants [cs]: it throws on a
    constant without initializer and otherwise answers the constants
    condition. *)
Definition constants_outcome (cs : list ProgramConstant) : Completion bool :=
  if initialised cs then Normal (optimal_constants cs) else Throw TypeError.

(** What a run with the matchers of the source delivers on the facts [F]:
    the output of the blocking checks, or, when neither blocks, the outcome
    of the constants check: referral to a mentor, or its [TypeError]. *)
Definition source_outcome (method : option MainMethod)
    (declaration : option ExportNamedDeclaration)
    (constants : list ProgramConstant) : Completion AnalyzerOutput :=
  let out := verdict_machine method declaration false in
  match status out with
  | ReferredToMentor =>
      if initialised constants then Normal out else Throw TypeError
  | _ => Normal out
  end.

(** The facts the three getters deliver during one run. *)
Record Facts := {
  fact_method : option MainMethod;
  fact_export : option ExportNamedDeclaration;
  fact_constants : list ProgramConstant }.

Section Reasoning.
Context {Input Program : Type} `{!Collaborators Input Program}.

(** One analysis of one submission: a new analyzer instance is run once. *)
Definition analyze {matchers : PatternMatchers Program} (input : Input)
  : Completion AnalyzerOutput :=
  fst (run input new_ResistorColorDuoAnalyzer).

(** The facts of a program, as the extractors return them. *)
Definition facts_of (p : Program) : Facts :=
  {| fact_method := extractMainMethod p "value";
     fact_export := extractExport p "value";
     fact_constants := findTopLevelConstants p ["let"; "const"; "var"] |}.

(** The facts an instance holding program [p] sees through its getters: a
    memoised field that is set takes precedence over the extractor. *)
Definition seen (p : Program) (this : ResistorColorDuoAnalyzer Program) : Facts :=
  {| fact_method :=
       match _mainMethod this with
       | Some m => Some m
       | None => extractMainMethod p "value"
       end;
     fact_export :=
       match _mainExport this with
       | Some e => e
       | None => extractExport p "value"
       end;
     fact_constants :=
       match _mainConstants this with
       | Some cs => cs
       | None => findTopLevelConstants p ["let"; "const"; "var"]
       end |}.

(** The instance holds program [p] and sees the facts [F]. *)
Definition holds (p : Program) (F : Facts)
    (this : ResistorColorDuoAnalyzer Program) : Prop :=
  program this = Some p ∧ seen p this = F.

(** A method observes [f]: on an instance that sees the facts [F] it returns
    [f F], and the instance still sees [F] and has the same output. *)
Definition observes {A : Type} (m : Method Program A) (f : Facts → A) : Prop :=
  ∀ p F this, holds p F this →
    ∃ this', m this = (Normal (f F), this') ∧
             holds p F this' ∧ output this' = output this.

(** The instance [this'] still holds the program of [this] and every
    memoised fact that [this] holds. *)
Definition keeps_memo (this this' : ResistorColorDuoAnalyzer Program) : Prop :=
  program this' = program this ∧
  (∀ m, _mainMethod this = Some m → _mainMethod this' = Some m) ∧
  (∀ e, _mainExport this = Some e → _mainExport this' = Some e) ∧
  (∀ cs, _mainConstants this = Some cs → _mainConstants this' = Some cs).

(** A method that never resets the program, nor a memoised fact. *)
Definition memo_stable {A : Type} (m : Method Program A) : Prop :=
  ∀ this, keeps_memo this (snd (m this)).

End Reasoning.

(** A completion of the matcher interface in which the map-join matcher
    answers the constants condition of the top-level constants, a constant
    without initializer counting as not acceptable.  It serves to exercise
    the approving branch of the verdict engine. *)
Definition constants_check_matchers {Input Program : Type}
    `{!Collaborators Input Program} : PatternMatchers Program := {|
  isOptimalMapJoinImplementation :=
    constants ← mainConstants; mret (optimal_constants constants);
  isOptimalReduceImplementation := mret false |}.

(** * Properties *)

Section GetterFacts.
Context {Input Program : Type} `{!Collaborators Input Program}.

Implicit Types (this : ResistorColorDuoAnalyzer Program) (p : Program) (F : Facts).

Lemma bind_normal {A B} (m : Method Program A) (k : A → Method Program B)
    this a this' :
  m this = (Normal a, this') → (m ≫= k) this = k a this'.
Proof. intros Hm. unfold mbind, Method_bind. by rewrite Hm. Qed.

Lemma bind_throw {A B} (m : Method Program A) (k : A → Method Program B)
    this e this' :
  m this = (Throw e, this') → (m ≫= k) this = (Throw e, this').
Proof. intros Hm. unfold mbind, Method_bind. by rewrite Hm. Qed.

Lemma observes_ret {A} (a : A) : observes (mret a) (λ _, a).
Proof. intros p F this Hc. by exists this. Qed.

Lemma observes_bind {A B} (m : Method Program A) (k : A → Method Program B)
    (f : Facts → A) (g : A → Facts → B) :
  observes m f → (∀ a, observes (k a) (g a)) →
  observes (m ≫= k) (λ F, g (f F) F).
Proof.
  intros Hm Hk p F this Hc.
  destruct (Hm p F this Hc) as (this1 & Hrun & Hc1 & Hout1).
  destruct (Hk (f F) p F this1 Hc1) as (this2 & Hrun2 & Hc2 & Hout2).
  exists this2. rewrite (bind_normal _ _ _ _ _ Hrun).
  split_and!; [done | done | congruence].
Qed.

Lemma observes_mainMethod : observes mainMethod fact_method.
Proof.
  intros p F this [Hp <-]. unfold mainMethod.
  destruct (_mainMethod this) as [m|] eqn:Hcache.
  - exists this. unfold seen at 1. simpl. by rewrite Hcache.
  - rewrite Hp. eexists. split.
    { unfold seen. simpl. rewrite Hcache. reflexivity. }
    split; [|done]. split; [done|]. unfold seen. simpl. rewrite Hcache.
    by destruct (extractMainMethod p "value").
Qed.

Lemma observes_mainExport : observes mainExport fact_export.
Proof.
  intros p F this [Hp <-]. unfold mainExport.
  destruct (_mainExport this) as [e|] eqn:Hcache.
  - exists this. unfold seen at 1. simpl. by rewrite Hcache.
  - rewrite Hp. eexists. split.
    { unfold seen. simpl. rewrite Hcache. reflexivity. }
    split; [|done]. split; [done|]. unfold seen. simpl. rewrite Hcache. done.
Qed.

Lemma observes_mainConstants : observes mainConstants fact_constants.
Proof.
  intros p F this [Hp <-]. unfold mainConstants.
  destruct (_mainConstants this) as [cs|] eqn:Hcache.
  - exists this. unfold seen at 1. simpl. by rewrite Hcache.
  - rewrite Hp. eexists. split.
    { unfold seen. simpl. rewrite Hcache. reflexivity. }
    split; [|done]. split; [done|]. unfold seen. simpl. rewrite Hcache. done.
Qed.

Lemma filter_by_init_type_spec test cs this :
  filter_by_init_type test cs this =
  (if initialised cs
   then Normal (filter (λ c, test_init test c) cs)
   else Throw TypeError, this).
Proof.
  induction cs as [|c cs IH]; [done|].
  cbn [filter_by_init_type initialised forallb]. fold (initialised cs).
  destruct (init c) as [e|] eqn:He; [|done].
  rewrite bool_decide_true by eauto. cbn [andb].
  unfold mbind, Method_bind. rewrite IH.
  destruct (initialised cs); [|done].
  assert (test_init test c = test (node_type e)) as Htest
    by (unfold test_init; by rewrite He).
  rewrite filter_cons.
  destruct (test (node_type e)).
  - by rewrite decide_True by (by rewrite Htest).
  - by rewrite decide_False by (rewrite Htest; intros []).
Qed.

(** The constants check throws on a constant without initializer and
    otherwise answers [optimal_constants] of the top-level constants. *)
Lemma isUsingOptimalConstants_spec p F this :
  holds p F this →
  ∃ this', isUsingOptimalConstants this =
             (constants_outcome (fact_constants F), this') ∧
           holds p F this' ∧ output this' = output this.
Proof.
  intros Hc. unfold isUsingOptimalConstants, constants_outcome, optimal_constants.
  destruct (observes_mainConstants p F this Hc) as (this1 & Hrun1 & Hc1 & Hout1).
  rewrite (bind_normal _ _ _ _ _ Hrun1).
  destruct (observes_mainConstants p F this1 Hc1) as (this2 & Hrun2 & Hc2 & Hout2).
  unfold mbind at 1, Method_bind at 1. rewrite filter_by_init_type_spec.
  destruct (initialised (fact_constants F)) eqn:Hinit; [|by exists this1].
  cbn [andb].
  destruct (decide (length (filter (λ c, test_init is_array_type c)
                              (fact_constants F)) = 1)) as [Harray|Harray].
  - rewrite (bool_decide_false (_ ≠ 1)) by (by intros []).
    rewrite (bind_normal _ _ _ _ _ Hrun2).
    unfold mbind at 1, Method_bind at 1. rewrite filter_by_init_type_spec, Hinit.
    exists this2. rewrite (bool_decide_true _ Harray). cbn [andb].
    split_and!; [|done|congruence].
    repeat case_bool_decide; simpl; try done; lia.
  - exists this1. rewrite (bool_decide_true (_ ≠ 1)) by done.
    by rewrite (bool_decide_false _ Harray).
Qed.

Lemma test_init_array c :
  test_init is_array_type c ↔ init_type c = Some ArrayExpression.
Proof.
  unfold test_init, init_type, is_array_type. destruct (init c) as [e|]; simpl.
  - rewrite bool_decide_spec. split; [by intros -> | by intros [= ->]].
  - done.
Qed.

Lemma optimal_constants_spec cs :
  optimal_constants cs = true ↔ single_array_table cs.
Proof.
  unfold optimal_constants, single_array_table.
  rewrite !andb_true_iff, !bool_decide_eq_true.
  rewrite (list_filter_iff _ (λ c, init_type c = Some ArrayExpression))
    by apply test_init_array.
  rewrite length_zero_iff_nil.
  assert (initialised cs = true ∧
          filter (λ c, test_init is_not_acceptable_type c) cs = [] ↔
          Forall (λ c, ∃ t, init_type c = Some t ∧ t ∈ acceptableTypes) cs)
    as Hacceptable.
  { induction cs as [|c cs IH]; [by split; [constructor|]|].
    cbn [initialised forallb]. fold (initialised cs).
    rewrite filter_cons, Forall_cons, <- IH, andb_true_iff, bool_decide_eq_true.
    unfold test_init, init_type, is_not_acceptable_type.
    destruct (init c) as [e|]; simpl.
    - destruct (decide (node_type e ∈ acceptableTypes)) as [Hin|Hnot].
      + rewrite bool_decide_false by (by intros ?). simpl.
        split; [intros [[_ ?] ?]; eauto | intros [_ [? ?]]; eauto].
      + rewrite bool_decide_true by done. simpl.
        split; [by intros [_ ?] | by intros [(t & [= <-] & ?) _]].
    - split; [by intros [[[] _] _] | by intros [(t & ? & _) _]]. }
  rewrite <- Hacceptable. tauto.
Qed.

Lemma observes_constants_condition :
  observes (mainConstants ≫= λ constants, mret (optimal_constants constants))
    (λ F, optimal_constants (fact_constants F)).
Proof.
  apply (observes_bind mainConstants _ fact_constants (λ cs _, optimal_constants cs));
    [apply observes_mainConstants | intros cs; apply observes_ret].
Qed.

(** The map-join matcher of the source answers false unless the constants
    check throws. *)
Lemma source_mapJoin_spec p F this :
  holds p F this →
  ∃ this',
    isOptimalMapJoinImplementation (PatternMatchers := source_matchers) this =
      (if initialised (fact_constants F) then Normal false else Throw TypeError,
       this') ∧
    holds p F this' ∧ output this' = output this.
Proof.
  intros Hc. simpl.
  destruct (isUsingOptimalConstants_spec p F this Hc) as (this1 & Hrun & ? & ?).
  exists this1. unfold constants_outcome in Hrun.
  destruct (initialised (fact_constants F)).
  - rewrite (bind_normal _ _ _ _ _ Hrun). by destruct (optimal_constants _).
  - by rewrite (bind_throw _ _ _ _ _ Hrun).
Qed.

Lemma observes_source_reduce :
  observes (isOptimalReduceImplementation (PatternMatchers := source_matchers))
    (λ _, false).
Proof. apply observes_ret. Qed.

End GetterFacts.

Section StageFacts.
Context {Input Program : Type} `{!Collaborators Input Program}.

Implicit Types (this : ResistorColorDuoAnalyzer Program) (p : Program) (F : Facts).

Lemma holds_set_output p F o this :
  holds p F this → holds p F (set_output o this).
Proof. by intros [? ?]. Qed.

Lemma holds_set_parsed (parsed : ParsedSource Program) this :
  holds (parsed_program parsed) (seen (parsed_program parsed) this)
    (set_parsed parsed this).
Proof. done. Qed.

Lemma seen_new p : seen p new_ResistorColorDuoAnalyzer = facts_of p.
Proof. done. Qed.

(** The structure check on an instance without commentary. *)
Lemma checkStructure_spec p F this :
  holds p F this → comments (output this) = [] →
  ∃ this',
    holds p F this' ∧
    match structure_comments (fact_method F) (fact_export F) with
    | [] => checkStructure this = (Normal (), this') ∧ output this' = output this
    | cs =>
        checkStructure this = (Throw EarlyFinalization, this') ∧
        output this' = {| status := Disapproved; comments := cs |}
    end.
Proof.
  intros Hc Hnone. unfold checkStructure.
  destruct (observes_mainMethod p F this Hc) as (this1 & Hrun1 & Hc1 & Hout1).
  rewrite (bind_normal _ _ _ _ _ Hrun1).
  destruct (observes_mainExport p F this1 Hc1) as (this2 & Hrun2 & Hc2 & Hout2).
  rewrite (bind_normal _ _ _ _ _ Hrun2).
  assert (comments (output this2) = []) as Hnone2 by congruence.
  destruct (fact_method F) as [m|], (fact_export F) as [d|];
    unfold mbind, Method_bind, hasCommentary, comment, disapprove, finalize,
      mret, Method_ret; simpl; rewrite ?Hnone2; simpl.
  - exists this2. split; [done|]. split; [done | congruence].
  - eexists. split; [|done]. by do 2 apply holds_set_output.
  - eexists. split; [|done]. by do 2 apply holds_set_output.
  - eexists. split; [|done]. by do 3 apply holds_set_output.
Qed.

(** The signature check, reached with the method present. *)
Lemma checkSignature_spec p F this m :
  holds p F this → fact_method F = Some m →
  ∃ this',
    holds p F this' ∧
    match signature_comments m with
    | [] => checkSignature this = (Normal (), this') ∧ output this' = output this
    | cs =>
        checkSignature this = (Throw EarlyFinalization, this') ∧
        output this' =
          {| status := Disapproved; comments := comments (output this) ++ cs |}
    end.
Proof.
  intros Hc Hm. unfold checkSignature, signature_comments.
  destruct (observes_mainMethod p F this Hc) as (this1 & Hrun1 & Hc1 & Hout1).
  rewrite (bind_normal _ _ _ _ _ Hrun1), Hm.
  destruct (params m) as [|first rest];
    unfold mbind, Method_bind, comment, disapprove, finalize, mret, Method_ret;
    simpl.
  - eexists. split; [|split; [done|]].
    + by do 2 apply holds_set_output.
    + simpl. by rewrite Hout1.
  - case_bool_decide; simpl.
    + eexists. split; [|split; [done|]].
      * by do 2 apply holds_set_output.
      * simpl. by rewrite Hout1.
    + exists this1. by split_and!.
Qed.

Lemma hasInlineExport_spec p F this d :
  holds p F this → fact_export F = Some d →
  ∃ this',
    hasInlineExport this = (Normal (bool_decide (length (specifiers d) = 0)), this') ∧
    holds p F this' ∧ output this' = output this.
Proof.
  intros Hc Hd. unfold hasInlineExport.
  destruct (observes_mainExport p F this Hc) as (this1 & Hrun1 & Hc1 & Hout1).
  rewrite (bind_normal _ _ _ _ _ Hrun1), Hd.
  destruct (observes_mainExport p F this1 Hc1) as (this2 & Hrun2 & Hc2 & Hout2).
  rewrite (bind_normal _ _ _ _ _ Hrun2), Hd.
  exists this2. split_and!; [done | done | congruence].
Qed.

Lemma checkForTips_spec p F this d :
  holds p F this → fact_export F = Some d →
  ∃ this',
    checkForTips this = (Normal (), this') ∧ holds p F this' ∧
    output this' =
      {| status := status (output this);
         comments := comments (output this) ++ tip_comments d |}.
Proof.
  intros Hc Hd. unfold checkForTips, tip_comments.
  destruct (hasInlineExport_spec p F this d Hc Hd) as (this1 & Hrun1 & Hc1 & Hout1).
  rewrite (bind_normal _ _ _ _ _ Hrun1).
  destruct (specifiers d) as [|s l]; simpl.
  - exists this1. split_and!; [done | done |].
    rewrite Hout1, app_nil_r. by destruct (output this).
  - eexists. split; [done|]. split; [by apply holds_set_output|].
    simpl. by rewrite Hout1.
Qed.

Section WithMatchers.
Context {matchers : PatternMatchers Program}.
Variables mapJoinP reduceP : Facts → bool.
Hypothesis mapJoin_observes : observes isOptimalMapJoinImplementation mapJoinP.
Hypothesis reduce_observes : observes isOptimalReduceImplementation reduceP.

Lemma checkForOptimalSolutions_spec p F this d :
  holds p F this → fact_export F = Some d →
  ∃ this',
    holds p F this' ∧
    if mapJoinP F || reduceP F
    then checkForOptimalSolutions this = (Throw EarlyFinalization, this') ∧
         output this' =
           {| status := Approved;
              comments := comments (output this) ++ tip_comments d |}
    else checkForOptimalSolutions this = (Normal (), this') ∧
         output this' = output this.
Proof using mapJoin_observes reduce_observes.
  intros Hc Hd. unfold checkForOptimalSolutions.
  destruct (mapJoin_observes p F this Hc) as (this1 & Hrun1 & Hc1 & Hout1).
  rewrite (bind_normal _ _ _ _ _ Hrun1).
  destruct (reduce_observes p F this1 Hc1) as (this2 & Hrun2 & Hc2 & Hout2).
  destruct (mapJoinP F); simpl.
  - destruct (checkForTips_spec p F this1 d Hc1 Hd) as (this3 & Hrun3 & Hc3 & Hout3).
    unfold mbind at 1, Method_bind at 1, mret, Method_ret.
    rewrite (bind_normal _ _ _ _ _ Hrun3).
    eexists. split; [|split; [done|]].
    + by apply holds_set_output.
    + simpl. rewrite Hout3. simpl. by rewrite Hout1.
  - destruct (reduceP F); simpl;
      unfold mbind at 1, Method_bind at 1;
      rewrite (bind_normal _ _ _ _ _ Hrun2);
      unfold mret, Method_ret; simpl.
    + destruct (checkForTips_spec p F this2 d Hc2 Hd) as (this3 & Hrun3 & Hc3 & Hout3).
      rewrite (bind_normal _ _ _ _ _ Hrun3).
      eexists. split; [|split; [done|]].
      * by apply holds_set_output.
      * simpl. rewrite Hout3. simpl. by rewrite Hout2, Hout1.
    + exists this2. split_and!; [done | done | congruence].
Qed.

End WithMatchers.

End StageFacts.

Section EngineFacts.
Context {Input Program : Type} `{!Collaborators Input Program}.
Context {matchers : PatternMatchers Program}.

Implicit Types (this : ResistorColorDuoAnalyzer Program) (p : Program) (F : Facts).

Lemma execute_parsed input parsed this :
  parse input = Some parsed →
  execute input this =
  (checkStructure;; checkSignature;; checkForOptimalSolutions)
    (set_parsed parsed this).
Proof. intros Hparse. unfold execute. by rewrite Hparse. Qed.

(** A check that leaves by an exception ends [execute]: the checks after it
    are not executed. *)
Lemma execute_stops_at_structure input parsed this e this' :
  parse input = Some parsed →
  checkStructure (set_parsed parsed this) = (Throw e, this') →
  execute input this = (Throw e, this').
Proof.
  intros Hparse Hthrow. rewrite (execute_parsed _ _ _ Hparse).
  by apply bind_throw.
Qed.

Lemma execute_stops_at_signature input parsed this this1 e this' :
  parse input = Some parsed →
  checkStructure (set_parsed parsed this) = (Normal (), this1) →
  checkSignature this1 = (Throw e, this') →
  execute input this = (Throw e, this').
Proof.
  intros Hparse Hstructure Hthrow. rewrite (execute_parsed _ _ _ Hparse).
  rewrite (bind_normal _ _ _ _ _ Hstructure). by apply bind_throw.
Qed.

(** A run blocked by the structure or by the signature check, whatever the
    matchers are. *)
Lemma run_blocked input parsed this :
  parse input = Some parsed →
  let p := parsed_program parsed in
  let F := seen p this in
  (structure_comments (fact_method F) (fact_export F) ≠ [] →
   ∃ this', run input this =
            (Normal {| status := Disapproved;
                       comments := structure_comments (fact_method F) (fact_export F) |},
             this') ∧ holds p F this') ∧
  (∀ m, structure_comments (fact_method F) (fact_export F) = [] →
        fact_method F = Some m → signature_comments m ≠ [] →
   ∃ this', run input this =
            (Normal {| status := Disapproved; comments := signature_comments m |},
             this') ∧ holds p F this').
Proof.
  intros Hparse p F. unfold run.
  rewrite (execute_parsed _ _ _ Hparse).
  set (this0 := set_parsed parsed (set_output new_AnalyzerOutput this)).
  assert (holds p F this0) as Hc0 by done.
  destruct (checkStructure_spec p F this0 Hc0 eq_refl) as (this1 & Hc1 & Hstructure).
  split.
  - intros Hblocked.
    destruct (structure_comments _ _) as [|c cs]; [done|].
    destruct Hstructure as [Hrun1 Hout1].
    rewrite (bind_throw _ _ _ _ _ Hrun1). exists this1. by rewrite Hout1.
  - intros m Hnone Hm Hblocked. rewrite Hnone in Hstructure.
    destruct Hstructure as [Hrun1 Hout1].
    rewrite (bind_normal _ _ _ _ _ Hrun1).
    destruct (checkSignature_spec p F this1 m Hc1 Hm) as (this2 & Hc2 & Hsignature).
    destruct (signature_comments m) as [|c cs]; [done|].
    destruct Hsignature as [Hrun2 Hout2].
    rewrite (bind_throw _ _ _ _ _ Hrun2). exists this2. by rewrite Hout2, Hout1.
Qed.

Variables mapJoinP reduceP : Facts → bool.
Hypothesis mapJoin_observes : observes isOptimalMapJoinImplementation mapJoinP.
Hypothesis reduce_observes : observes isOptimalReduceImplementation reduceP.

(** The analyzer computes the verdict machine: a run delivers the output the
    state machine assigns to the facts the instance sees, and the instance
    sees the same facts afterwards. *)
Lemma run_verdict_machine input parsed this :
  parse input = Some parsed →
  let p := parsed_program parsed in
  let F := seen p this in
  ∃ this',
    run input this =
    (Normal (verdict_machine (fact_method F) (fact_export F)
               (mapJoinP F || reduceP F)), this') ∧
    holds p F this'.
Proof using mapJoin_observes reduce_observes.
  intros Hparse p F. unfold run.
  rewrite (execute_parsed _ _ _ Hparse).
  set (this0 := set_parsed parsed (set_output new_AnalyzerOutput this)).
  assert (holds p F this0) as Hc0 by done.
  destruct (checkStructure_spec p F this0 Hc0 eq_refl) as (this1 & Hc1 & Hstructure).
  unfold verdict_machine.
  destruct (fact_method F) as [m|] eqn:Hm, (fact_export F) as [d|] eqn:Hd;
    simpl in Hstructure; destruct Hstructure as [Hrun1 Hout1];
    try (rewrite (bind_throw _ _ _ _ _ Hrun1); exists this1; by rewrite Hout1).
  rewrite (bind_normal _ _ _ _ _ Hrun1).
  destruct (checkSignature_spec p F this1 m Hc1 Hm) as (this2 & Hc2 & Hsignature).
  destruct (signature_comments m) as [|c cs]; destruct Hsignature as [Hrun2 Hout2];
    [|rewrite (bind_throw _ _ _ _ _ Hrun2); exists this2; by rewrite Hout2, Hout1].
  rewrite (bind_normal _ _ _ _ _ Hrun2).
  destruct (checkForOptimalSolutions_spec mapJoinP reduceP
              mapJoin_observes reduce_observes p F this2 d Hc2 Hd)
    as (this3 & Hc3 & Hoptimal).
  destruct (mapJoinP F || reduceP F); destruct Hoptimal as [-> Hout3];
    exists this3; by rewrite Hout3, Hout2, Hout1.
Qed.


End EngineFacts.

(** ** The verdict machine *)

Lemma structure_comments_blocking method declaration :
  Forall is_blocking (structure_comments method declaration).
Proof. destruct method, declaration; repeat constructor. Qed.

Lemma signature_comments_blocking m : Forall is_blocking (signature_comments m).
Proof.
  unfold signature_comments. destruct (params m); [repeat constructor|].
  case_bool_decide; repeat constructor.
Qed.





(** ** Blocking checks *)

Section BlockingChecks.
Context {Input Program : Type} `{!Collaborators Input Program}.
Context {matchers : PatternMatchers Program}.

Lemma analyze_blocked_structure (input : Input) parsed :
  parse input = Some parsed →
  let F := facts_of (parsed_program parsed) in
  structure_comments (fact_method F) (fact_export F) ≠ [] →
  analyze input =
  Normal {| status := Disapproved;
            comments := structure_comments (fact_method F) (fact_export F) |}.
Proof.
  intros Hparse F Hblocked. unfold analyze.
  destruct (run_blocked input parsed new_ResistorColorDuoAnalyzer Hparse)
    as [Hstructure _].
  destruct (Hstructure Hblocked) as (this' & -> & _). done.
Qed.

Lemma analyze_blocked_signature (input : Input) parsed m d :
  parse input = Some parsed →
  extractMainMethod (parsed_program parsed) "value" = Some m →
  extractExport (parsed_program parsed) "value" = Some d →
  signature_comments m ≠ [] →
  analyze input =
  Normal {| status := Disapproved; comments := signature_comments m |}.
Proof.
  intros Hparse Hm Hd Hblocked. unfold analyze.
  destruct (run_blocked input parsed new_ResistorColorDuoAnalyzer Hparse)
    as [_ Hsignature].
  destruct (Hsignature m) as (this' & -> & _); try done.
  rewrite seen_new. simpl. by rewrite Hm, Hd.
Qed.

(** C6: a submission that passes the structure check (a [value] function is
    found and so is its export) and whose [value] function declares no
    parameter is Disapproved, and its comment list is the "no parameter"
    comment carrying the function name; this holds whatever the pattern
    matchers would answer. *)
Theorem no_parameter_disapproved (input : Input) parsed m d :
  parse input = Some parsed →
  extractMainMethod (parsed_program parsed) "value" = Some m →
  extractExport (parsed_program parsed) "value" = Some d →
  params m = [] →
  ∃ out, analyze input = Normal out ∧
         status out = Disapproved ∧
         NO_PARAMETER {[ "function.name" := id m ]} ∈ comments out ∧
         comments out = [NO_PARAMETER {[ "function.name" := id m ]}].
Proof.
  intros Hparse Hm Hd Hparams.
  assert (signature_comments m = [NO_PARAMETER {[ "function.name" := id m ]}])
    as Hcomments by (unfold signature_comments; by rewrite Hparams).
  eexists. split.
  - apply (analyze_blocked_signature input parsed m d); try done.
    by rewrite Hcomments.
  - rewrite Hcomments. simpl. split_and!; [done | apply list_elem_of_here | done].
Qed.

(** C7: a submission that passes the structure check and whose first
    parameter is a rest element is Disapproved, and its comment list is the
    "unexpected splat" comment, whose mapping carries the name of that
    parameter and its annotated type, or "untyped" when it has no
    annotation. *)
Theorem splat_parameter_disapproved (input : Input) parsed m d first rest :
  parse input = Some parsed →
  extractMainMethod (parsed_program parsed) "value" = Some m →
  extractExport (parsed_program parsed) "value" = Some d →
  params m = first :: rest →
  param_type first = RestElement →
  ∃ out c, analyze input = Normal out ∧
           status out = Disapproved ∧
           comments out = [c] ∧
           template c = UnexpectedSplatArgs ∧
           variables c !! "splat-arg.name" = Some (parameterName first) ∧
           variables c !! "parameter.type" =
             Some (match typeAnnotation first with
                   | Some annotation => annotation
                   | None => "untyped"
                   end).
Proof.
  intros Hparse Hm Hd Hparams Hrest.
  assert (signature_comments m =
          [UNEXPECTED_SPLAT_ARGS
             {[ "splat-arg.name" := parameterName first;
                "parameter.type" := annotateType (typeAnnotation first) ]}])
    as Hcomments.
  { unfold signature_comments. rewrite Hparams. by rewrite bool_decide_true. }
  eexists _, _. split.
  - apply (analyze_blocked_signature input parsed m d); try done.
    by rewrite Hcomments.
  - rewrite Hcomments. simpl. by split_and!.
Qed.

(** C8, as amended: a submission that lacks an exported function named
    [value], that is, one in which the [value] function or the export of
    [value] is not found, is Disapproved; its comment list contains the "no
    named export" comment exactly when no export of [value] is found, and
    the "no method" comment exactly when no [value] function is found. *)
Theorem missing_piece_disapproved (input : Input) parsed :
  parse input = Some parsed →
  let p := parsed_program parsed in
  extractMainMethod p "value" = None ∨ extractExport p "value" = None →
  ∃ out, analyze input = Normal out ∧
         status out = Disapproved ∧
         (NO_NAMED_EXPORT {[ "export.name" := "value" ]} ∈ comments out ↔
          extractExport p "value" = None) ∧
         (NO_METHOD {[ "method.name" := "value" ]} ∈ comments out ↔
          extractMainMethod p "value" = None).
Proof.
  intros Hparse p Hmissing. eexists. split.
  - apply (analyze_blocked_structure input parsed Hparse).
    cbn [facts_of fact_method fact_export]. fold p.
    destruct Hmissing as [-> | ->]; [done|].
    by destruct (extractMainMethod p "value").
  - cbn [facts_of fact_method fact_export status comments]. fold p.
    split; [done|].
    destruct (extractMainMethod p "value") as [m|],
             (extractExport p "value") as [d|]; cbn [structure_comments app];
      rewrite ?elem_of_cons, ?elem_of_nil; [by destruct Hmissing|..];
      clear Hmissing;
      (split; split; first [ done | by intros [?|[?|[]]] | by intros [?|[]]
                           | by intros; left | by intros; right; left ]).
Qed.

End BlockingChecks.

(** ** The verdict invariant *)

Section VerdictInvariant.
Context {Input Program : Type} `{!Collaborators Input Program}.
Context {matchers : PatternMatchers Program}.


End VerdictInvariant.

(** ** Repeated runs *)

Section RepeatedRuns.
Context {Input Program : Type} `{!Collaborators Input Program}.

Implicit Types (this : ResistorColorDuoAnalyzer Program).

Lemma run_parse_failure {matchers : PatternMatchers Program} (input : Input) this :
  parse input = None → fst (run input this) = Throw ParseFailure.
Proof. intros Hparse. unfold run, execute. by rewrite Hparse. Qed.

(** The output of a run is a function of the facts the instance sees. *)
Lemma run_seen {matchers : PatternMatchers Program} (mapJoinP reduceP : Facts → bool)
    (input : Input) this this' :
  observes isOptimalMapJoinImplementation mapJoinP →
  observes isOptimalReduceImplementation reduceP →
  (∀ p, seen p this' = seen p this) →
  fst (run input this') = fst (run input this).
Proof.
  intros HmapJoin Hreduce Hseen.
  destruct (parse input) as [parsed|] eqn:Hparse;
    [|by rewrite !run_parse_failure].
  destruct (run_verdict_machine mapJoinP reduceP HmapJoin Hreduce
              input parsed this Hparse) as (this1 & -> & _).
  destruct (run_verdict_machine mapJoinP reduceP HmapJoin Hreduce
              input parsed this' Hparse) as (this1' & -> & _).
  by rewrite Hseen.
Qed.

(** A second run on the instance left by a first run of the same input
    delivers the same output. *)
Lemma run_again {matchers : PatternMatchers Program} (mapJoinP reduceP : Facts → bool)
    (input : Input) this :
  observes isOptimalMapJoinImplementation mapJoinP →
  observes isOptimalReduceImplementation reduceP →
  fst (run input (snd (run input this))) = fst (run input this).
Proof.
  intros HmapJoin Hreduce.
  destruct (parse input) as [parsed|] eqn:Hparse;
    [|by rewrite !run_parse_failure].
  destruct (run_verdict_machine mapJoinP reduceP HmapJoin Hreduce
              input parsed this Hparse) as (this1 & Hrun1 & _ & Hseen1).
  rewrite Hrun1. cbn [fst snd].
  destruct (run_verdict_machine mapJoinP reduceP HmapJoin Hreduce
              input parsed this1 Hparse) as (this2 & -> & _).
  by rewrite Hseen1.
Qed.

(** The optimality check with the matchers of the source: it returns
    without touching the output, unless the constants check throws. *)
Lemma source_checkForOptimalSolutions_spec p F this :
  holds p F this →
  ∃ this',
    checkForOptimalSolutions (matchers := source_matchers) this =
      (if initialised (fact_constants F) then Normal () else Throw TypeError,
       this') ∧
    holds p F this' ∧ output this' = output this.
Proof.
  intros Hc. unfold checkForOptimalSolutions.
  destruct (source_mapJoin_spec p F this Hc) as (this1 & Hrun1 & Hc1 & Hout1).
  destruct (initialised (fact_constants F)).
  - rewrite (bind_normal _ _ _ _ _ Hrun1). by exists this1.
  - rewrite (bind_throw _ _ _ _ _ Hrun1). by exists this1.
Qed.

(** A run with the matchers of the source: the completion is
    [source_outcome] of the facts the instance sees, and the instance sees
    the same facts afterwards. *)
Lemma source_run_outcome (input : Input) parsed this :
  parse input = Some parsed →
  let p := parsed_program parsed in
  let F := seen p this in
  ∃ this',
    run (matchers := source_matchers) input this =
    (source_outcome (fact_method F) (fact_export F) (fact_constants F), this') ∧
    holds p F this'.
Proof.
  intros Hparse p F. unfold run.
  rewrite (execute_parsed _ _ _ Hparse).
  set (this0 := set_parsed parsed (set_output new_AnalyzerOutput this)).
  assert (holds p F this0) as Hc0 by done.
  destruct (checkStructure_spec p F this0 Hc0 eq_refl) as (this1 & Hc1 & Hstructure).
  unfold source_outcome, verdict_machine.
  destruct (fact_method F) as [m|] eqn:Hm, (fact_export F) as [d|] eqn:Hd;
    simpl in Hstructure; destruct Hstructure as [Hrun1 Hout1];
    try (rewrite (bind_throw _ _ _ _ _ Hrun1); exists this1; by rewrite Hout1).
  rewrite (bind_normal _ _ _ _ _ Hrun1).
  destruct (checkSignature_spec p F this1 m Hc1 Hm) as (this2 & Hc2 & Hsignature).
  destruct (signature_comments m) as [|c cs]; destruct Hsignature as [Hrun2 Hout2];
    [|rewrite (bind_throw _ _ _ _ _ Hrun2); exists this2; by rewrite Hout2, Hout1].
  rewrite (bind_normal _ _ _ _ _ Hrun2).
  destruct (source_checkForOptimalSolutions_spec p F this2 Hc2)
    as (this3 & Hrun3 & Hc3 & Hout3).
  rewrite Hrun3. cbn [status].
  destruct (initialised (fact_constants F)); exists this3; [|done].
  by rewrite Hout3, Hout2, Hout1.
Qed.

(** C9, as amended: re-running the analyzer on identical source delivers the
    same completion, hence the same verdict and the same ordered comment
    list, when the second run is on the instance left by the first run,
    whatever the memoised fields held before it, and when the two runs start
    on instances that see the same facts, in particular on two new
    instances. *)
Theorem run_idempotent (input : Input) this :
  fst (run (matchers := source_matchers) input
         (snd (run (matchers := source_matchers) input this))) =
  fst (run (matchers := source_matchers) input this) ∧
  (∀ this', (∀ p, seen p this' = seen p this) →
     fst (run (matchers := source_matchers) input this') =
     fst (run (matchers := source_matchers) input this)) ∧
  analyze (matchers := source_matchers) input =
  fst (run (matchers := source_matchers) input
         (snd (run (matchers := source_matchers) input
                 new_ResistorColorDuoAnalyzer))).
Proof.
  assert (∀ this0,
    fst (run (matchers := source_matchers) input
           (snd (run (matchers := source_matchers) input this0))) =
    fst (run (matchers := source_matchers) input this0)) as Hagain.
  { intros this0.
    destruct (parse input) as [parsed|] eqn:Hparse;
      [|by rewrite !run_parse_failure].
    destruct (source_run_outcome input parsed this0 Hparse)
      as (this1 & Hrun1 & _ & Hseen1).
    rewrite Hrun1. cbn [fst snd].
    destruct (source_run_outcome input parsed this1 Hparse) as (this2 & -> & _).
    by rewrite Hseen1. }
  split_and!.
  - apply Hagain.
  - intros this' Hseen.
    destruct (parse input) as [parsed|] eqn:Hparse;
      [|by rewrite !run_parse_failure].
    destruct (source_run_outcome input parsed this Hparse) as (this1 & -> & _).
    destruct (source_run_outcome input parsed this' Hparse) as (this1' & -> & _).
    by rewrite Hseen.
  - unfold analyze. symmetry. apply Hagain.
Qed.

(** A run with the matchers of the source that delivers an output delivers
    the output of the verdict machine without a match. *)
Lemma source_run_delivers (input : Input) parsed this out :
  parse input = Some parsed →
  fst (run (matchers := source_matchers) input this) = Normal out →
  let F := seen (parsed_program parsed) this in
  out = verdict_machine (fact_method F) (fact_export F) false.
Proof.
  intros Hparse Hrun F.
  destruct (source_run_outcome input parsed this Hparse) as (this1 & Hrun1 & _).
  rewrite Hrun1 in Hrun. cbn [fst] in Hrun. fold F in Hrun.
  unfold source_outcome in Hrun.
  destruct (status _); [congruence| congruence |].
  destruct (initialised _); congruence.
Qed.

End RepeatedRuns.

(** ** The non-null assertion of the signature check *)

Section SignatureReached.
Context {Input Program : Type} `{!Collaborators Input Program}.
Context {matchers : PatternMatchers Program}.

(** C10: in a run, let [this0] be the instance on which the structure check
    starts.  (1) If the getter finds no [value] function, the structure check
    resolves the run to Disapproved and leaves by early finalization, and
    [execute] ends there, before the signature check.  (2) If the structure
    check returns, so that the signature check is executed, the getter read
    by the signature check delivers a method, and the signature check does
    not throw a [TypeError]. *)
Theorem signature_check_reads_method (input : Input) parsed
    (this : ResistorColorDuoAnalyzer Program) :
  parse input = Some parsed →
  let this0 := set_parsed parsed (set_output new_AnalyzerOutput this) in
  (fst (mainMethod this0) = Normal None →
   ∃ this1, checkStructure this0 = (Throw EarlyFinalization, this1) ∧
            status (output this1) = Disapproved ∧
            execute input (set_output new_AnalyzerOutput this) =
              (Throw EarlyFinalization, this1)) ∧
  (∀ this1, checkStructure this0 = (Normal (), this1) →
   ∃ m this2, mainMethod this1 = (Normal (Some m), this2) ∧
              fst (checkSignature this1) ≠ Throw TypeError).
Proof.
  intros Hparse this0.
  set (p := parsed_program parsed). set (F := seen p this0).
  assert (holds p F this0) as Hc0 by done.
  destruct (checkStructure_spec p F this0 Hc0 eq_refl) as (this1' & Hc1 & Hstructure).
  destruct (observes_mainMethod p F this0 Hc0) as (this0' & Hget0 & _).
  split.
  - intros Hnone.
    assert (fact_method F = None) as Hm
      by (rewrite Hget0 in Hnone; by injection Hnone).
    rewrite Hm in Hstructure.
    assert (structure_comments None (fact_export F) =
            NO_METHOD {[ "method.name" := "value" ]}
              :: match fact_export F with
                 | None => [NO_NAMED_EXPORT {[ "export.name" := "value" ]}]
                 | Some _ => []
                 end) as Hcomments by done.
    rewrite Hcomments in Hstructure. destruct Hstructure as [Hrun1 Hout1].
    exists this1'. split_and!; [done | by rewrite Hout1 |].
    by eapply execute_stops_at_structure.
  - intros this1 Hrun1.
    destruct (fact_method F) as [m|] eqn:Hm;
      [|destruct Hstructure as [Hrun1' _]; congruence].
    destruct (fact_export F) as [d|] eqn:Hd;
      [|destruct Hstructure as [Hrun1' _]; congruence].
    destruct Hstructure as [Hrun1' _].
    assert (this1' = this1) as -> by congruence.
    destruct (observes_mainMethod p F this1 Hc1) as (this2 & Hget1 & _).
    exists m, this2. split; [by rewrite Hget1, Hm|].
    destruct (checkSignature_spec p F this1 m Hc1 Hm) as (this2' & _ & Hsignature).
    destruct (signature_comments m); destruct Hsignature as [-> _]; done.
Qed.

End SignatureReached.

(** ** The constants check *)

Section ConstantsCheck.
Context {Input Program : Type} `{!Collaborators Input Program}.

Lemma object_table_only_no_array cs :
  object_table_only cs →
  initialised cs = true ∧ filter (λ c, test_init is_array_type c) cs = [].
Proof.
  intros (table & _ & Htable & Hothers).
  induction cs as [|c cs IH]; [done|].
  destruct IH as [Hinit Harrays].
  { intros c' Hc'. apply Hothers. by apply list_elem_of_further. }
  assert (is_Some (init c) ∧ ¬ test_init is_array_type c) as [Hsome Hnot].
  { unfold test_init. destruct (decide (c = table)) as [->|Hne].
    - destruct (init table) as [[]|]; try done. by split; [eauto | intros []].
    - destruct (Hothers c (list_elem_of_here _ _) Hne) as [Hf|Hf];
        destruct (init c) as [e|]; [|done| |done];
        injection Hf as Hf; (split; [eauto | by rewrite Hf; intros []]). }
  split.
  - cbn [initialised forallb]. fold (initialised cs).
    by rewrite bool_decide_true, Hinit.
  - by rewrite filter_cons, decide_False.
Qed.

(** C4, as amended: the constants check accepts the single-array form only.
    On an instance that sees the facts [F] it answers true exactly when one
    top-level constant has an array initializer and every top-level constant
    is an array or a function; when the table is an object literal keyed by
    the ten colour names and every other constant is function-like, it
    answers false. *)
Theorem constants_check_single_array (p : Program) F
    (this : ResistorColorDuoAnalyzer Program) :
  holds p F this →
  (fst (isUsingOptimalConstants this) = Normal true ↔
   single_array_table (fact_constants F)) ∧
  (object_table_only (fact_constants F) →
   fst (isUsingOptimalConstants this) = Normal false).
Proof.
  intros Hc.
  destruct (isUsingOptimalConstants_spec p F this Hc) as (this' & -> & _).
  cbn [fst]. unfold constants_outcome. split.
  - rewrite <- optimal_constants_spec.
    destruct (initialised (fact_constants F)) eqn:Hinit.
    + split; [by intros [= ->] | by intros ->].
    + unfold optimal_constants. rewrite Hinit. done.
  - intros Hobject.
    destruct (object_table_only_no_array _ Hobject) as [Hinit Harrays].
    rewrite Hinit. f_equal. unfold optimal_constants.
    by rewrite Hinit, Harrays.
Qed.

End ConstantsCheck.

(** ** Concrete submissions *)

(** The blocking checks on concrete submissions. *)
Example fixture_306_disapproved :
  analyze (matchers := source_matchers) fixture_306 =
  Normal {| status := Disapproved;
            comments := [NO_NAMED_EXPORT {[ "export.name" := "value" ]}] |}.
Proof. by vm_compute. Qed.

Example empty_submission_disapproved :
  analyze (matchers := source_matchers) empty_submission =
  Normal {| status := Disapproved;
            comments := [NO_METHOD {[ "method.name" := "value" ]};
                         NO_NAMED_EXPORT {[ "export.name" := "value" ]}] |}.
Proof. by vm_compute. Qed.

Example splat_submission_disapproved :
  analyze (matchers := source_matchers) splat_submission =
  Normal {| status := Disapproved;
            comments := [UNEXPECTED_SPLAT_ARGS
                           {[ "splat-arg.name" := "colors";
                              "parameter.type" := "untyped" ]}] |}.
Proof. by vm_compute. Qed.

Lemma object_table_submission_shape :
  object_table_only (fact_constants (facts_of object_table_submission)).
Proof.
  exists (const "colorCodes"
            (EObject (zip canonical_colors
                        ["0"; "1"; "2"; "3"; "4"; "5"; "6"; "7"; "8"; "9"]))).
  split_and!.
  - apply list_elem_of_here.
  - reflexivity.
  - intros c Hc Hne. vm_compute in Hc.
    apply elem_of_cons in Hc as [->|Hc]; [done|].
    apply elem_of_cons in Hc as [->|Hc]; [by right|].
    by apply elem_of_nil in Hc.
Qed.

(** C4, counterexample: the submission whose only table is the object
    literal keyed by the ten colour names has the shape the claim describes,
    and the constants check answers false on it. *)
Lemma object_table_rejected :
  object_table_only (fact_constants (facts_of object_table_submission)) ∧
  fst (isUsingOptimalConstants (started object_table_submission)) = Normal false.
Proof. split; [apply object_table_submission_shape | by vm_compute]. Qed.

Lemma constants_check_single_array_witness :
  holds fixture_307 (facts_of fixture_307) (started fixture_307) ∧
  ((fst (isUsingOptimalConstants (started fixture_307)) = Normal true ↔
    single_array_table (fact_constants (facts_of fixture_307))) ∧
   (object_table_only (fact_constants (facts_of fixture_307)) →
    fst (isUsingOptimalConstants (started fixture_307)) = Normal false)).
Proof.
  assert (holds fixture_307 (facts_of fixture_307) (started fixture_307)) as Hholds
    by (split; reflexivity).
  split; [exact Hholds|].
  exact (constants_check_single_array fixture_307 (facts_of fixture_307)
           (started fixture_307) Hholds).
Defined.

(** C1: on fixture 307, the canonical map-join submission, the run of the
    analyzer delivers ReferredToMentor without comment, where the
    specification promises Approved. *)
Theorem map_join_fixture_referred :
  analyze (matchers := source_matchers) fixture_307 =
  Normal {| status := ReferredToMentor; comments := [] |}.
Proof. by vm_compute. Qed.

(** C2: on the reduce submission written out in the source, the run of the
    analyzer delivers ReferredToMentor without comment, where the
    specification promises Approved. *)
Theorem reduce_submission_referred :
  analyze (matchers := source_matchers) reduce_submission =
  Normal {| status := ReferredToMentor; comments := [] |}.
Proof. by vm_compute. Qed.

(** C5: on the map-join submission exported through an export list, the run
    of the analyzer delivers ReferredToMentor without comment, where the
    specification promises Approved with the inline-export tip. *)
Theorem export_list_submission_referred :
  analyze (matchers := source_matchers) export_list_submission =
  Normal {| status := ReferredToMentor; comments := [] |}.
Proof. by vm_compute. Qed.

(** The approving branch of the engine is sound once a matcher answers true:
    with the constants check standing in for the map-join matcher, fixture 307
    is Approved without comment and the export-list submission is Approved
    with exactly the inline-export tip. *)
Lemma approving_branch_examples :
  analyze (matchers := constants_check_matchers) fixture_307 =
    Normal {| status := Approved; comments := [] |} ∧
  analyze (matchers := constants_check_matchers) export_list_submission =
    Normal {| status := Approved; comments := [TIP_EXPORT_INLINE] |}.
Proof. split; by vm_compute. Qed.

Lemma no_parameter_disapproved_witness :
  parse no_parameter_submission = Some (parsed_of no_parameter_submission) ∧
  extractMainMethod no_parameter_submission "value" =
    Some {| id := "value"; params := [] |} ∧
  extractExport no_parameter_submission "value" = Some inline_export ∧
  params {| id := "value"; params := [] |} = [] ∧
  ∃ out, analyze (matchers := constants_check_matchers) no_parameter_submission =
           Normal out ∧
         status out = Disapproved ∧
         NO_PARAMETER {[ "function.name" := "value" ]} ∈ comments out ∧
         comments out = [NO_PARAMETER {[ "function.name" := "value" ]}].
Proof.
  split_and!; [reflexivity..|].
  exact (no_parameter_disapproved (matchers := constants_check_matchers)
           no_parameter_submission (parsed_of no_parameter_submission)
           {| id := "value"; params := [] |} inline_export
           eq_refl eq_refl eq_refl eq_refl).
Defined.

Lemma splat_parameter_disapproved_witness :
  let first := {| param_type := RestElement; param_name := "colors";
                  typeAnnotation := None |} in
  let m := {| id := "value"; params := [first] |} in
  parse splat_submission = Some (parsed_of splat_submission) ∧
  extractMainMethod splat_submission "value" = Some m ∧
  extractExport splat_submission "value" = Some inline_export ∧
  params m = [first] ∧
  param_type first = RestElement ∧
  ∃ out c, analyze (matchers := source_matchers) splat_submission = Normal out ∧
           status out = Disapproved ∧
           comments out = [c] ∧
           template c = UnexpectedSplatArgs ∧
           variables c !! "splat-arg.name" = Some "colors" ∧
           variables c !! "parameter.type" = Some "untyped".
Proof.
  intros first m. split_and!; [reflexivity..|].
  exact (splat_parameter_disapproved (matchers := source_matchers)
           splat_submission (parsed_of splat_submission) m inline_export first []
           eq_refl eq_refl eq_refl eq_refl eq_refl).
Defined.

Lemma missing_piece_disapproved_witness :
  parse fixture_306 = Some (parsed_of fixture_306) ∧
  (extractMainMethod fixture_306 "value" = None ∨
   extractExport fixture_306 "value" = None) ∧
  ∃ out, analyze (matchers := source_matchers) fixture_306 = Normal out ∧
         status out = Disapproved ∧
         (NO_NAMED_EXPORT {[ "export.name" := "value" ]} ∈ comments out ↔
          extractExport fixture_306 "value" = None) ∧
         (NO_METHOD {[ "method.name" := "value" ]} ∈ comments out ↔
          extractMainMethod fixture_306 "value" = None).
Proof.
  split; [reflexivity|]. split; [right; reflexivity|].
  exact (missing_piece_disapproved (matchers := source_matchers)
           fixture_306 (parsed_of fixture_306) eq_refl
           (or_intror eq_refl)).
Defined.

(** C8, counterexample: the submission [export const value = 5;] has no
    function named [value], exported or not; it is Disapproved, but the "no
    named export" comment is not in its comment list. *)
Lemma exported_number_lacks_named_export_comment :
  extractMainMethod exported_number_submission "value" = None ∧
  ∃ out, analyze (matchers := source_matchers) exported_number_submission =
           Normal out ∧
         NO_NAMED_EXPORT {[ "export.name" := "value" ]} ∉ comments out.
Proof.
  split; [reflexivity|].
  exists {| status := Disapproved;
            comments := [NO_METHOD {[ "method.name" := "value" ]}] |}.
  split; [by vm_compute|].
  cbn [comments]. by intros [=]%list_elem_of_singleton.
Qed.

(** C9, counterexample: the same source analysed twice on one instance, with
    another submission in between, gets two different comment lists. *)
Lemma same_source_different_outputs :
  let this1 :=
    snd (run (matchers := source_matchers) empty_submission
           new_ResistorColorDuoAnalyzer) in
  let this2 := snd (run (matchers := source_matchers) fixture_307 this1) in
  fst (run (matchers := source_matchers) empty_submission
         new_ResistorColorDuoAnalyzer) =
    Normal {| status := Disapproved;
              comments := [NO_METHOD {[ "method.name" := "value" ]};
                           NO_NAMED_EXPORT {[ "export.name" := "value" ]}] |} ∧
  fst (run (matchers := source_matchers) empty_submission this2) =
    Normal {| status := Disapproved;
              comments := [NO_NAMED_EXPORT {[ "export.name" := "value" ]}] |}.
Proof. split; by vm_compute. Qed.

(** A top-level declarator without initializer makes the constants check
    throw, and the run with it. *)
Example uninitialised_submission_throws :
  analyze (matchers := source_matchers) uninitialised_submission =
  Throw TypeError.
Proof. by vm_compute. Qed.

Lemma observes_constants_check_mapJoin :
  observes (Program := Submission)
    (isOptimalMapJoinImplementation (PatternMatchers := constants_check_matchers))
    (λ F, optimal_constants (fact_constants F)).
Proof. apply observes_constants_condition. Qed.

Lemma observes_constants_check_reduce :
  observes (Program := Submission)
    (isOptimalReduceImplementation (PatternMatchers := constants_check_matchers))
    (λ _, false).
Proof. apply observes_ret. Qed.


Lemma signature_check_reads_method_witness :
  let this0 := set_parsed (parsed_of fixture_307)
                 (set_output new_AnalyzerOutput new_ResistorColorDuoAnalyzer) in
  parse fixture_307 = Some (parsed_of fixture_307) ∧
  (fst (mainMethod this0) = Normal None →
   ∃ this1, checkStructure this0 = (Throw EarlyFinalization, this1) ∧
            status (output this1) = Disapproved ∧
            execute (matchers := source_matchers) fixture_307
              (set_output new_AnalyzerOutput new_ResistorColorDuoAnalyzer) =
              (Throw EarlyFinalization, this1)) ∧
  (∀ this1, checkStructure this0 = (Normal (), this1) →
   ∃ m this2, mainMethod this1 = (Normal (Some m), this2) ∧
              fst (checkSignature this1) ≠ Throw TypeError).
Proof.
  intros this0. split; [reflexivity|].
  exact (signature_check_reads_method (matchers := source_matchers)
           fixture_307 (parsed_of fixture_307) new_ResistorColorDuoAnalyzer
           eq_refl).
Defined.

(** * Further properties of the analyzer *)

(** ** What a run delivers *)

Section RunOutputs.
Context {Input Program : Type} `{!Collaborators Input Program}.
Context {matchers : PatternMatchers Program}.

Implicit Types (this : ResistorColorDuoAnalyzer Program) (F : Facts).

(** X1: a run computes the verdict state machine.  For matchers that observe
    the facts, a run of a parsed input on any instance delivers the output
    the state machine assigns to the facts the instance sees: the structural
    comments if a piece is missing, else the signature comment, else
    Approved with the tip comments if a matcher answered true, else
    ReferredToMentor without comment. *)
Theorem run_refines_verdict_machine (mapJoinP reduceP : Facts → bool)
    (input : Input) parsed this :
  observes isOptimalMapJoinImplementation mapJoinP →
  observes isOptimalReduceImplementation reduceP →
  parse input = Some parsed →
  let F := seen (parsed_program parsed) this in
  fst (run input this) =
  Normal (verdict_machine (fact_method F) (fact_export F)
            (mapJoinP F || reduceP F)).
Proof.
  intros HmapJoin Hreduce Hparse F.
  destruct (run_verdict_machine mapJoinP reduceP HmapJoin Hreduce
              input parsed this Hparse) as (this' & -> & _).
  done.
Qed.

(** X3: the shape of a delivered output.  A ReferredToMentor output has no
    comment; a Disapproved output has one or two comments, all of them
    blocking; an Approved output has no comment or exactly the inline-export
    tip. *)
Theorem delivered_output_shape (mapJoinP reduceP : Facts → bool)
    (input : Input) this out :
  observes isOptimalMapJoinImplementation mapJoinP →
  observes isOptimalReduceImplementation reduceP →
  fst (run input this) = Normal out →
  match status out with
  | ReferredToMentor => comments out = []
  | Disapproved =>
      1 ≤ length (comments out) ≤ 2 ∧ Forall is_blocking (comments out)
  | Approved => comments out = [] ∨ comments out = [TIP_EXPORT_INLINE]
  end.
Proof.
  intros HmapJoin Hreduce Hrun.
  destruct (parse input) as [parsed|] eqn:Hparse;
    [|by rewrite run_parse_failure in Hrun].
  destruct (run_verdict_machine mapJoinP reduceP HmapJoin Hreduce
              input parsed this Hparse) as (this' & Hrun' & _).
  revert Hrun'. generalize (seen (parsed_program parsed) this). intros F Hrun'.
  rewrite Hrun' in Hrun. cbn [fst] in Hrun. injection Hrun as <-.
  clear Hrun'. unfold verdict_machine.
  destruct (fact_method F) as [m|], (fact_export F) as [d|]; simpl;
    try (split; [lia | repeat constructor]).
  pose proof (signature_comments_blocking m) as Hblocking.
  unfold signature_comments in *.
  destruct (params m) as [|first rest]; simpl.
  { split; [lia | done]. }
  case_bool_decide; simpl.
  { split; [lia | done]. }
  destruct (mapJoinP F || reduceP F); simpl; [|done].
  unfold tip_comments. destruct (specifiers d); [by left | by right].
Qed.

(** X9: a blocked run does not consult the matchers.  When a structural
    piece is missing or the signature check blocks, the run has the same
    result and leaves the same instance, memoised fields included, whatever
    the two matchers are. *)
Theorem blocked_run_ignores_matchers (others : PatternMatchers Program)
    (input : Input) parsed this :
  parse input = Some parsed →
  let F := seen (parsed_program parsed) this in
  (structure_comments (fact_method F) (fact_export F) ≠ [] ∨
   ∃ m, fact_method F = Some m ∧ signature_comments m ≠ []) →
  run (matchers := matchers) input this = run (matchers := others) input this.
Proof.
  intros Hparse F Hblocked. unfold run.
  set (this0 := set_parsed parsed (set_output new_AnalyzerOutput this)).
  assert (holds (parsed_program parsed) F this0) as Hc0 by done.
  destruct (checkStructure_spec _ F this0 Hc0 eq_refl) as (this1 & Hc1 & Hstructure).
  destruct (structure_comments (fact_method F) (fact_export F)) as [|c cs] eqn:Hcs.
  - destruct Hblocked as [?|(m & Hm & Hsignature)]; [done|].
    destruct Hstructure as [Hrun1 _].
    destruct (checkSignature_spec _ F this1 m Hc1 Hm) as (this2 & _ & Hsig).
    destruct (signature_comments m) as [|c cs]; [done|].
    destruct Hsig as [Hrun2 _].
    by rewrite !(execute_stops_at_signature _ _ _ _ _ _ Hparse Hrun1 Hrun2).
  - destruct Hstructure as [Hrun1 _].
    by rewrite !(execute_stops_at_structure _ _ _ _ _ Hparse Hrun1).
Qed.

(** X5: the structure check records one comment per missing piece, the
    method first.  Whatever the matchers are, a submission without [value]
    function and without export of [value] is Disapproved with the "no
    method" and the "no named export" comment in this order; one whose export
    is found but whose function is not, with the "no method" comment alone;
    one whose function is found but whose export is not, with the "no named
    export" comment alone. *)
Theorem structure_check_comments (input : Input) parsed :
  parse input = Some parsed →
  let p := parsed_program parsed in
  (extractMainMethod p "value" = None → extractExport p "value" = None →
   analyze input =
   Normal {| status := Disapproved;
             comments := [NO_METHOD {[ "method.name" := "value" ]};
                          NO_NAMED_EXPORT {[ "export.name" := "value" ]}] |}) ∧
  (∀ d, extractMainMethod p "value" = None → extractExport p "value" = Some d →
   analyze input =
   Normal {| status := Disapproved;
             comments := [NO_METHOD {[ "method.name" := "value" ]}] |}) ∧
  (∀ m, extractMainMethod p "value" = Some m → extractExport p "value" = None →
   analyze input =
   Normal {| status := Disapproved;
             comments := [NO_NAMED_EXPORT {[ "export.name" := "value" ]}] |}).
Proof.
  intros Hparse p.
  pose proof (analyze_blocked_structure input parsed Hparse) as Hblocked.
  simpl in Hblocked. fold p in Hblocked.
  split_and!.
  - intros Hm Hd. rewrite Hm, Hd in Hblocked. by apply Hblocked.
  - intros d Hm Hd. rewrite Hm, Hd in Hblocked. by apply Hblocked.
  - intros m Hm Hd. rewrite Hm, Hd in Hblocked. by apply Hblocked.
Qed.

End RunOutputs.

(** ** The checks one by one *)

Section CheckFacts.
Context {Input Program : Type} `{!Collaborators Input Program}.

Implicit Types (this : ResistorColorDuoAnalyzer Program) (p : Program) (F : Facts).

(** X6: the signature check looks at the first parameter only.  With the
    method present it returns, leaving the output as it was, exactly when the
    parameter list is not empty and its first element is not a rest element;
    what follows the first parameter, a rest element included, is not
    inspected. *)
Theorem signature_check_first_parameter p F this m :
  holds p F this → fact_method F = Some m →
  (fst (checkSignature this) = Normal () ↔
   ∃ first rest, params m = first :: rest ∧ param_type first ≠ RestElement) ∧
  (fst (checkSignature this) = Normal () →
   output (snd (checkSignature this)) = output this).
Proof.
  intros Hc Hm.
  destruct (checkSignature_spec p F this m Hc Hm) as (this' & _ & Hsignature).
  unfold signature_comments in Hsignature.
  destruct (params m) as [|first rest] eqn:Hparams.
  - destruct Hsignature as [-> _]. simpl. split; [|done].
    split; [done | by intros (? & ? & ? & _)].
  - case_bool_decide as Hrest; destruct Hsignature as [-> Hout]; simpl.
    + split; [|done]. split; [done|].
      intros (first' & rest' & [= <- <-] & Hne). done.
    + split; [|done]. split; [|done]. intros _. by exists first, rest.
Qed.

(** X7: the tip check never touches the verdict.  With the export present it
    returns, keeps the status of the output, and appends the inline-export
    tip exactly when the export statement has specifiers. *)
Theorem tips_keep_verdict p F this d :
  holds p F this → fact_export F = Some d →
  ∃ this',
    checkForTips this = (Normal (), this') ∧
    status (output this') = status (output this) ∧
    comments (output this') =
      comments (output this) ++
      (if bool_decide (specifiers d = []) then [] else [TIP_EXPORT_INLINE]).
Proof.
  intros Hc Hd.
  destruct (checkForTips_spec p F this d Hc Hd) as (this' & Hrun & _ & Hout).
  exists this'. rewrite Hout. simpl. split_and!; [done | done |].
  unfold tip_comments. by destruct (specifiers d).
Qed.

(** X13: the signature check and the tip check rely on the structure check
    having passed.  Executed on an instance that finds no method, the
    signature check throws a [TypeError]; executed on an instance that finds
    no export, the tip check throws a [TypeError]; neither records a comment
    nor resolves the run. *)
Theorem unguarded_checks_throw p F this :
  holds p F this →
  (fact_method F = None →
   fst (checkSignature this) = Throw TypeError ∧
   output (snd (checkSignature this)) = output this) ∧
  (fact_export F = None →
   fst (checkForTips this) = Throw TypeError ∧
   output (snd (checkForTips this)) = output this).
Proof.
  intros Hc. split.
  - intros Hm. unfold checkSignature.
    destruct (observes_mainMethod p F this Hc) as (this1 & Hrun1 & _ & Hout1).
    by rewrite (bind_normal _ _ _ _ _ Hrun1), Hm.
  - intros Hd.
    destruct (observes_mainExport p F this Hc) as (this1 & Hrun1 & _ & Hout1).
    assert (hasInlineExport this = (Throw TypeError, this1)) as Hthrow
      by (unfold hasInlineExport; by rewrite (bind_normal _ _ _ _ _ Hrun1), Hd).
    unfold checkForTips. by rewrite (bind_throw _ _ _ _ _ Hthrow).
Qed.

(** X8: the reduce matcher is consulted only after the map-join matcher has
    answered false.  When the map-join matcher answers true, the optimality
    check has the same result and leaves the same instance whatever the
    reduce matcher is, one that throws included. *)
Theorem reduce_matcher_short_circuited
    (mapJoin reduce reduce' : Method Program bool) (mapJoinP : Facts → bool)
    p F this :
  observes mapJoin mapJoinP → holds p F this → mapJoinP F = true →
  checkForOptimalSolutions
    (matchers := {| isOptimalMapJoinImplementation := mapJoin;
                    isOptimalReduceImplementation := reduce |}) this =
  checkForOptimalSolutions
    (matchers := {| isOptimalMapJoinImplementation := mapJoin;
                    isOptimalReduceImplementation := reduce' |}) this.
Proof.
  intros HmapJoin Hc Htrue. unfold checkForOptimalSolutions. simpl.
  destruct (HmapJoin p F this Hc) as (this1 & Hrun1 & _).
  rewrite !(bind_normal _ _ _ _ _ Hrun1), Htrue. done.
Qed.

Lemma initialised_Permutation cs cs' :
  cs ≡ₚ cs' → initialised cs = initialised cs'.
Proof.
  unfold initialised. induction 1 as [|c l l' _ IH|c c' l|l l' l'' _ IH _ IH'];
    cbn [forallb]; [done | by rewrite IH | | congruence].
  by rewrite !andb_assoc, (andb_comm (bool_decide (is_Some (init c')))).
Qed.

Lemma filter_functions_nil (P : ProgramConstant → Prop) `{!∀ c, Decision (P c)}
    (functions : list ProgramConstant) :
  Forall (λ c, function_like (init c)) functions →
  (∀ c, function_like (init c) → ¬ P c) →
  filter P functions = [].
Proof.
  induction 1 as [|c cs Hc _ IH]; intros HP; [done|].
  rewrite filter_cons, decide_False by auto. auto.
Qed.

(** X12: the constants check depends neither on the order of the top-level
    constants nor on those that are functions.  Two instances whose constants
    agree up to reordering and up to added function-valued constants get the
    same answer. *)
Theorem constants_check_order_and_functions p F this p' F' this' functions :
  holds p F this → holds p' F' this' →
  Forall (λ c, function_like (init c)) functions →
  fact_constants F' ≡ₚ functions ++ fact_constants F →
  fst (isUsingOptimalConstants this') = fst (isUsingOptimalConstants this).
Proof.
  intros Hc Hc' Hfunctions Hperm.
  destruct (isUsingOptimalConstants_spec p F this Hc) as (this1 & -> & _).
  destruct (isUsingOptimalConstants_spec p' F' this' Hc') as (this1' & -> & _).
  cbn [fst].
  assert (initialised (fact_constants F') = initialised (fact_constants F))
    as Hinit.
  { rewrite (initialised_Permutation _ _ Hperm). unfold initialised.
    rewrite forallb_app. fold (initialised (fact_constants F)).
    replace (forallb _ functions) with true; [done|].
    symmetry. clear Hperm.
    induction Hfunctions as [|c cs Hf _ IH]; [done|]. cbn [forallb].
    rewrite IH, bool_decide_true; [done|].
    destruct Hf as [Hf|Hf]; by destruct (init c). }
  unfold constants_outcome, optimal_constants. rewrite Hinit.
  rewrite (Permutation_length
             (filter_Permutation (λ c, test_init is_array_type c) _ _ Hperm)).
  rewrite (Permutation_length
             (filter_Permutation (λ c, test_init is_not_acceptable_type c)
                _ _ Hperm)).
  rewrite !filter_app.
  rewrite (filter_functions_nil
             (λ c, test_init is_array_type c) functions Hfunctions).
  2:{ intros c [Hf|Hf]; unfold test_init; destruct (init c); [|done| |done];
        injection Hf as ->; by intros []. }
  rewrite (filter_functions_nil
             (λ c, test_init is_not_acceptable_type c) functions Hfunctions).
  2:{ intros c [Hf|Hf]; unfold test_init; destruct (init c); [|done| |done];
        injection Hf as ->; by intros []. }
  done.
Qed.

End CheckFacts.

(** ** The analyzer as it stands *)

Section SourceRuns.
Context {Input Program : Type} `{!Collaborators Input Program}.

Implicit Types (this : ResistorColorDuoAnalyzer Program).

Lemma verdict_machine_unmatched_blocking method declaration :
  Forall is_blocking (comments (verdict_machine method declaration false)) ∧
  status (verdict_machine method declaration false) ≠ Approved.
Proof.
  unfold verdict_machine.
  pose proof (structure_comments_blocking method declaration) as Hstructure.
  destruct method as [m|], declaration as [d|]; try done.
  pose proof (signature_comments_blocking m) as Hsignature.
  by destruct (signature_comments m).
Qed.

Lemma signature_comments_nil m :
  signature_comments m = [] ↔
  ∃ first rest, params m = first :: rest ∧ param_type first ≠ RestElement.
Proof.
  unfold signature_comments. destruct (params m) as [|first rest].
  - split; [done | by intros (? & ? & ? & _)].
  - case_bool_decide as Hrest.
    + split; [done | by intros (? & ? & [= <- <-] & ?)].
    + split; [by exists first, rest | done].
Qed.

Lemma initialised_false cs :
  initialised cs = false ↔ ∃ c, c ∈ cs ∧ init c = None.
Proof.
  induction cs as [|c cs IH]; cbn [initialised forallb].
  - split; [done | by intros (? & ?%elem_of_nil & _)].
  - fold (initialised cs). rewrite andb_false_iff, IH, bool_decide_eq_false.
    split.
    + intros [Hnone|(c' & ? & ?)].
      * exists c. split; [apply list_elem_of_here|].
        destruct (init c); [by destruct Hnone; eauto | done].
      * exists c'. split; [by apply list_elem_of_further | done].
    + intros (c' & [->|?]%elem_of_cons & Hnone).
      * left. rewrite Hnone. by intros [? ?].
      * right. by exists c'.
Qed.

Lemma source_outcome_throw method declaration constants e :
  source_outcome method declaration constants = Throw e ↔
  e = TypeError ∧
  ∃ m d, method = Some m ∧ declaration = Some d ∧
         signature_comments m = [] ∧ initialised constants = false.
Proof.
  unfold source_outcome, verdict_machine.
  destruct method as [m|], declaration as [d|]; cbn [status];
    try (split; [done | by intros (_ & ? & ? & ? & ? & _)]).
  destruct (signature_comments m) as [|c cs] eqn:Hsignature; cbn [status].
  - destruct (initialised constants).
    + split; [done | by intros (_ & ? & ? & _ & _ & _ & ?)].
    + split; [intros [= <-]; split; [done | by exists m, d]| by intros [-> _]].
  - split; [done|]. intros (_ & m' & d' & [= <-] & _ & Hnil & _).
    by rewrite Hsignature in Hnil.
Qed.

(** X2: the exceptions that leave a run.  On any instance, whatever its
    memoised fields hold, a run throws in exactly two cases: the input does
    not parse, which is the failure of the parser; or the method and its
    export are found, the first parameter exists and is not a rest element,
    and a top-level constant the instance sees has no initializer, which is
    the [TypeError] of [c.init!.type] in the constants check.  The non-null
    assertions on the method, on the export and on the first parameter do
    not throw in a run, and no early finalization reaches the caller. *)
Theorem run_throws_exactly (input : Input) this e :
  fst (run (matchers := source_matchers) input this) = Throw e ↔
  (e = ParseFailure ∧ parse input = None) ∨
  (e = TypeError ∧
   ∃ parsed m d first rest c,
     parse input = Some parsed ∧
     fact_method (seen (parsed_program parsed) this) = Some m ∧
     fact_export (seen (parsed_program parsed) this) = Some d ∧
     params m = first :: rest ∧ param_type first ≠ RestElement ∧
     c ∈ fact_constants (seen (parsed_program parsed) this) ∧ init c = None).
Proof.
  destruct (parse input) as [parsed|] eqn:Hparse.
  - destruct (source_run_outcome input parsed this Hparse) as (this1 & -> & _).
    cbn [fst]. rewrite source_outcome_throw. split.
    + intros (-> & m & d & Hm & Hd & Hsignature & Hinit). right.
      apply signature_comments_nil in Hsignature as (first & rest & ? & ?).
      apply initialised_false in Hinit as (c & ? & ?).
      split; [done|]. by exists parsed, m, d, first, rest, c.
    + intros [[_ ?]|(-> & parsed' & m & d & first & rest & c & Hparse' & Hm &
                     Hd & Hparams & Hrest & Hc & Hnone)]; [done|].
      injection Hparse' as <-. split; [done|]. exists m, d.
      split_and!; [done | done | |].
      * apply signature_comments_nil. by exists first, rest.
      * apply initialised_false. by exists c.
  - rewrite (run_parse_failure input this Hparse). split.
    + intros [= <-]. by left.
    + intros [[-> _]|(_ & ? & ? & ? & ? & ? & ? & ? & _)]; done.
Qed.

(** X4: with the matchers as they stand no run approves.  On any instance
    and any input a delivered output is Disapproved or ReferredToMentor, all
    of its comments are blocking, and the inline-export tip is not among
    them. *)
Theorem run_never_approves (input : Input) this out :
  fst (run (matchers := source_matchers) input this) = Normal out →
  status out ≠ Approved ∧
  Forall is_blocking (comments out) ∧
  TIP_EXPORT_INLINE ∉ comments out.
Proof.
  intros Hrun.
  destruct (parse input) as [parsed|] eqn:Hparse;
    [|by rewrite (run_parse_failure input this Hparse) in Hrun].
  rewrite (source_run_delivers input parsed this out Hparse Hrun).
  destruct (verdict_machine_unmatched_blocking
              (fact_method (seen (parsed_program parsed) this))
              (fact_export (seen (parsed_program parsed) this)))
    as [Hblocking Hstatus].
  split_and!; [done | done |].
  intros Htip. rewrite Forall_forall in Hblocking.
  by apply Hblocking in Htip.
Qed.

End SourceRuns.

(** ** Reusing an instance *)

Section ReusedInstance.
Context {Input Program : Type} `{!Collaborators Input Program}.

Implicit Types (this : ResistorColorDuoAnalyzer Program) (p : Program).

Lemma keeps_memo_refl this : keeps_memo this this.
Proof. by split_and!. Qed.

Lemma keeps_memo_trans this1 this2 this3 :
  keeps_memo this1 this2 → keeps_memo this2 this3 → keeps_memo this1 this3.
Proof.
  intros (Hp & Hm & He & Hcs) (Hp' & Hm' & He' & Hcs').
  split_and!; [congruence | auto..].
Qed.

Lemma memo_stable_ret {A} (a : A) : memo_stable (Program := Program) (mret a).
Proof. intros this. apply keeps_memo_refl. Qed.

Lemma memo_stable_throw {A} e : memo_stable (Program := Program) (throw (A := A) e).
Proof. intros this. apply keeps_memo_refl. Qed.

Lemma memo_stable_bind {A B} (m : Method Program A) (k : A → Method Program B) :
  memo_stable m → (∀ a, memo_stable (k a)) → memo_stable (m ≫= k).
Proof.
  intros Hm Hk this. specialize (Hm this). unfold mbind, Method_bind.
  destruct (m this) as [[a|e] this1]; [|done].
  eapply keeps_memo_trans; [exact Hm | apply Hk].
Qed.

Lemma memo_stable_mainMethod : memo_stable (Program := Program) mainMethod.
Proof.
  intros this. unfold mainMethod.
  destruct (_mainMethod this) eqn:Hmemo; [apply keeps_memo_refl|].
  destruct (program this); [|apply keeps_memo_refl].
  split_and!; [done | | done | done]. simpl. by rewrite Hmemo.
Qed.

Lemma memo_stable_mainExport : memo_stable (Program := Program) mainExport.
Proof.
  intros this. unfold mainExport.
  destruct (_mainExport this) eqn:Hmemo; [apply keeps_memo_refl|].
  destruct (program this); [|apply keeps_memo_refl].
  split_and!; [done | done | | done]. simpl. by rewrite Hmemo.
Qed.

Lemma memo_stable_mainConstants : memo_stable (Program := Program) mainConstants.
Proof.
  intros this. unfold mainConstants.
  destruct (_mainConstants this) eqn:Hmemo; [apply keeps_memo_refl|].
  destruct (program this); [|apply keeps_memo_refl].
  split_and!; [done | done | done |]. simpl. by rewrite Hmemo.
Qed.

Lemma memo_stable_filter_by_init_type test cs :
  memo_stable (Program := Program) (filter_by_init_type test cs).
Proof.
  intros this. rewrite filter_by_init_type_spec. apply keeps_memo_refl.
Qed.

Lemma memo_stable_comment c : memo_stable (Program := Program) (comment c).
Proof. intros this. destruct c; by split_and!. Qed.

Lemma memo_stable_hasCommentary : memo_stable (Program := Program) hasCommentary.
Proof. intros this. apply keeps_memo_refl. Qed.

Lemma memo_stable_finalize {A} v :
  memo_stable (Program := Program) (finalize (A := A) v).
Proof. intros this. by split_and!. Qed.

Lemma memo_stable_disapprove {A} c :
  memo_stable (Program := Program) (disapprove (A := A) c).
Proof.
  apply memo_stable_bind; [apply memo_stable_comment|].
  intros _. apply memo_stable_finalize.
Qed.

Lemma memo_stable_approve {A} c :
  memo_stable (Program := Program) (approve (A := A) c).
Proof.
  apply memo_stable_bind; [apply memo_stable_comment|].
  intros _. apply memo_stable_finalize.
Qed.

Create HintDb memo discriminated.

#[local] Hint Resolve memo_stable_ret memo_stable_throw memo_stable_mainMethod
  memo_stable_mainExport memo_stable_mainConstants memo_stable_comment
  memo_stable_hasCommentary memo_stable_finalize memo_stable_disapprove
  memo_stable_approve memo_stable_filter_by_init_type : memo.

Ltac memo_stable_steps :=
  repeat first
    [ progress auto with memo
    | apply memo_stable_bind
    | match goal with |- ∀ _, _ => intros ? end
    | case_match
    | case_bool_decide ].

Lemma memo_stable_checkStructure : memo_stable (Program := Program) checkStructure.
Proof. unfold checkStructure. memo_stable_steps. Qed.

Lemma memo_stable_checkSignature : memo_stable (Program := Program) checkSignature.
Proof. unfold checkSignature. memo_stable_steps. Qed.

Lemma memo_stable_checkForTips : memo_stable (Program := Program) checkForTips.
Proof. unfold checkForTips, hasInlineExport. memo_stable_steps. Qed.

Lemma memo_stable_isUsingOptimalConstants :
  memo_stable (Program := Program) isUsingOptimalConstants.
Proof. unfold isUsingOptimalConstants. memo_stable_steps. Qed.

Lemma memo_stable_checkForOptimalSolutions :
  memo_stable (Program := Program)
    (checkForOptimalSolutions (matchers := source_matchers)).
Proof.
  pose proof memo_stable_checkForTips. pose proof memo_stable_isUsingOptimalConstants.
  unfold checkForOptimalSolutions. simpl. memo_stable_steps.
Qed.

Lemma bind_assoc {A B C} (m : Method Program A) (k : A → Method Program B)
    (h : B → Method Program C) this :
  ((m ≫= k) ≫= h) this = (m ≫= λ a, k a ≫= h) this.
Proof. unfold mbind, Method_bind. by destruct (m this) as [[a|e] this1]. Qed.

Lemma mainMethod_memoises this m this1 :
  mainMethod this = (Normal (Some m), this1) → _mainMethod this1 = Some m.
Proof.
  unfold mainMethod. destruct (_mainMethod this) eqn:Hmemo.
  - intros [= <- <-]. done.
  - destruct (program this); [|done]. intros [= Hm <-]. done.
Qed.

Lemma mainExport_memoises this e this1 :
  mainExport this = (Normal e, this1) → _mainExport this1 = Some e.
Proof.
  unfold mainExport. destruct (_mainExport this) eqn:Hmemo.
  - intros [= <- <-]. done.
  - destruct (program this); [|done]. by intros [= <- <-].
Qed.

Lemma run_snd {matchers : PatternMatchers Program} (input : Input) this :
  snd (run input this) = snd (execute input (set_output new_AnalyzerOutput this)).
Proof.
  unfold run. by destruct (execute _ _) as [[?|[]] ?].
Qed.

(** After a run of a parsed input the instance holds the export it saw, and
    the method it saw if there was one. *)
Lemma run_memoises (input : Input) parsed this :
  parse input = Some parsed →
  let F := seen (parsed_program parsed) this in
  let this' := snd (run (matchers := source_matchers) input this) in
  _mainExport this' = Some (fact_export F) ∧
  (∀ m, fact_method F = Some m → _mainMethod this' = Some m).
Proof.
  intros Hparse F this'. unfold this'. clear this'.
  rewrite run_snd, (execute_parsed _ _ _ Hparse).
  set (this0 := set_parsed parsed (set_output new_AnalyzerOutput this)).
  assert (holds (parsed_program parsed) F this0) as Hc0 by done.
  destruct (observes_mainMethod _ F this0 Hc0) as (this1 & Hget1 & Hc1 & _).
  destruct (observes_mainExport _ F this1 Hc1) as (this2 & Hget2 & Hc2 & _).
  pose proof (memo_stable_mainExport this1) as Hkeep1.
  rewrite Hget2 in Hkeep1. cbn [snd] in Hkeep1.
  apply mainExport_memoises in Hget2 as Hexport.
  unfold checkStructure. rewrite !bind_assoc.
  rewrite (bind_normal _ _ _ _ _ Hget1), bind_assoc.
  pose proof Hget2 as Hget2'.
  apply (bind_normal _ (λ functionDeclaration : option ExportNamedDeclaration,
           (match fact_method F with
            | None => comment (Some (NO_METHOD {[ "method.name" := "value" ]}))
            | Some _ => mret ()
            end;;
            match functionDeclaration with
            | None => comment (Some (NO_NAMED_EXPORT {[ "export.name" := "value" ]}))
            | Some _ => mret ()
            end;;
            commentary ← hasCommentary;
            if (commentary : bool) then disapprove None else mret ()) ≫=
           (λ _, checkSignature;;
                 checkForOptimalSolutions (matchers := source_matchers))))
    in Hget2'.
  rewrite Hget2'. clear Hget2'.
  match goal with
  | |- context [ snd (?tail this2) ] =>
      assert (memo_stable tail) as Htail
  end.
  { pose proof memo_stable_checkSignature.
    pose proof memo_stable_checkForOptimalSolutions.
    memo_stable_steps. }
  destruct (Htail this2) as (_ & Hmethod & Hexport' & _).
  split; [by apply Hexport'|].
  intros m Hm. apply Hmethod. destruct Hkeep1 as (_ & Hmethod1 & _).
  apply Hmethod1. rewrite Hm in Hget1. by apply mainMethod_memoises in Hget1.
Qed.

Lemma mainConstants_memoises this cs this1 :
  mainConstants this = (Normal cs, this1) → _mainConstants this1 = Some cs.
Proof.
  unfold mainConstants. destruct (_mainConstants this) eqn:Hmemo.
  - intros [= <- <-]. done.
  - destruct (program this); [|done]. by intros [= <- <-].
Qed.

(** After a run in which neither the structure nor the signature check
    blocked, the instance holds the constants it saw. *)
Lemma run_memoises_constants (input : Input) parsed this m d :
  parse input = Some parsed →
  let F := seen (parsed_program parsed) this in
  fact_method F = Some m → fact_export F = Some d →
  signature_comments m = [] →
  _mainConstants (snd (run (matchers := source_matchers) input this)) =
  Some (fact_constants F).
Proof.
  intros Hparse F Hm Hd Hsignature.
  rewrite run_snd, (execute_parsed _ _ _ Hparse).
  set (this0 := set_parsed parsed (set_output new_AnalyzerOutput this)).
  assert (holds (parsed_program parsed) F this0) as Hc0 by done.
  destruct (checkStructure_spec _ F this0 Hc0 eq_refl) as (this1 & Hc1 & Hstructure).
  rewrite Hm, Hd in Hstructure. destruct Hstructure as [Hrun1 _].
  rewrite (bind_normal _ _ _ _ _ Hrun1).
  destruct (checkSignature_spec _ F this1 m Hc1 Hm) as (this2 & Hc2 & Hrun2).
  rewrite Hsignature in Hrun2. destruct Hrun2 as [Hrun2 _].
  rewrite (bind_normal _ _ _ _ _ Hrun2).
  destruct (observes_mainConstants _ F this2 Hc2) as (this3 & Hget & _).
  unfold checkForOptimalSolutions. cbn [isOptimalMapJoinImplementation
    isOptimalReduceImplementation source_matchers].
  unfold isUsingOptimalConstants. rewrite !bind_assoc.
  rewrite (bind_normal _ _ _ _ _ Hget).
  match goal with
  | |- context [ snd (?tail this3) ] =>
      assert (memo_stable tail) as Htail
  end.
  { pose proof memo_stable_checkForTips. memo_stable_steps. }
  destruct (Htail this3) as (_ & _ & _ & Hconstants).
  apply Hconstants. by apply mainConstants_memoises in Hget.
Qed.

Lemma source_outcome_blocked m declaration cs cs' :
  declaration = None ∨ signature_comments m ≠ [] →
  source_outcome (Some m) declaration cs = source_outcome (Some m) declaration cs'.
Proof.
  unfold source_outcome, verdict_machine.
  intros [->|Hsignature]; [done|].
  destruct declaration; [|done]. by destruct (signature_comments m).
Qed.

(** X10: the memoised facts are not reset by [execute].  An instance that has
    analysed a submission in which a [value] function was found answers
    every later submission with the output of that first submission, whatever
    the later submission contains. *)
Theorem reused_instance_replays_first_output
    (first : Input) parsed m (later : Input) parsed' :
  parse first = Some parsed →
  extractMainMethod (parsed_program parsed) "value" = Some m →
  parse later = Some parsed' →
  fst (run (matchers := source_matchers) later
         (snd (run (matchers := source_matchers) first
                 new_ResistorColorDuoAnalyzer))) =
  analyze (matchers := source_matchers) first.
Proof.
  intros Hparse Hm Hparse'.
  destruct (run_memoises first parsed new_ResistorColorDuoAnalyzer Hparse)
    as [Hexport Hmethod].
  pose proof (run_memoises_constants first parsed new_ResistorColorDuoAnalyzer m)
    as Hconstants.
  rewrite seen_new in Hexport, Hmethod, Hconstants.
  cbn [facts_of fact_method fact_export fact_constants]
    in Hexport, Hmethod, Hconstants.
  specialize (Hmethod m Hm).
  unfold analyze.
  destruct (source_run_outcome first parsed new_ResistorColorDuoAnalyzer Hparse)
    as (this1 & Hrun1 & _).
  rewrite Hrun1 in Hexport, Hmethod, Hconstants |- *.
  cbn [fst snd] in Hexport, Hmethod, Hconstants |- *.
  destruct (source_run_outcome later parsed' this1 Hparse') as (this2 & -> & _).
  cbn [fst]. rewrite seen_new. unfold seen.
  cbn [facts_of fact_method fact_export fact_constants].
  rewrite Hexport, Hmethod, Hm.
  destruct (extractExport (parsed_program parsed) "value") as [d|] eqn:Hd;
    [|apply source_outcome_blocked; by left].
  destruct (signature_comments m) as [|c cs] eqn:Hsignature;
    [|apply source_outcome_blocked; right; by rewrite Hsignature].
  by rewrite (Hconstants d Hparse Hm eq_refl eq_refl).
Qed.

(** X11: a miss of the export is memoised, a miss of the method is not.  An
    instance that has analysed a submission with neither [value] function nor
    export finds the function of a later submission but not its export: the
    later submission is Disapproved with the "no named export" comment alone,
    even when it exports [value]. *)
Theorem reused_instance_keeps_missing_export
    (first : Input) parsed (later : Input) parsed' m' :
  parse first = Some parsed →
  extractMainMethod (parsed_program parsed) "value" = None →
  extractExport (parsed_program parsed) "value" = None →
  parse later = Some parsed' →
  extractMainMethod (parsed_program parsed') "value" = Some m' →
  fst (run (matchers := source_matchers) later
         (snd (run (matchers := source_matchers) first
                 new_ResistorColorDuoAnalyzer))) =
  Normal {| status := Disapproved;
            comments := [NO_NAMED_EXPORT {[ "export.name" := "value" ]}] |}.
Proof.
  intros Hparse Hm Hd Hparse' Hm'.
  destruct (run_memoises first parsed new_ResistorColorDuoAnalyzer Hparse)
    as [Hexport _].
  rewrite seen_new in Hexport. cbn [facts_of fact_export] in Hexport.
  rewrite Hd in Hexport.
  destruct (source_run_outcome first parsed new_ResistorColorDuoAnalyzer Hparse)
    as (this1 & Hrun1 & _ & Hseen1).
  rewrite Hrun1 in Hexport |- *. cbn [snd] in Hexport |- *.
  assert (_mainMethod this1 = None) as Hmethod.
  { rewrite seen_new in Hseen1. apply (f_equal fact_method) in Hseen1.
    cbn [seen facts_of fact_method] in Hseen1. rewrite Hm in Hseen1.
    by destruct (_mainMethod this1). }
  destruct (source_run_outcome later parsed' this1 Hparse') as (this2 & -> & _).
  cbn [fst]. unfold seen. cbn [fact_method fact_export fact_constants].
  by rewrite Hexport, Hmethod, Hm'.
Qed.

End ReusedInstance.

(** ** The further properties on concrete submissions *)

Lemma holds_started (s : Submission) : holds s (facts_of s) (started s).
Proof. by split. Qed.

Lemma run_refines_verdict_machine_witness :
  let mapJoinP := λ F, optimal_constants (fact_constants F) in
  let reduceP := λ _ : Facts, false in
  let F := seen fixture_307 new_ResistorColorDuoAnalyzer in
  observes
    (isOptimalMapJoinImplementation (PatternMatchers := constants_check_matchers))
    mapJoinP ∧
  observes
    (isOptimalReduceImplementation (PatternMatchers := constants_check_matchers))
    reduceP ∧
  parse fixture_307 = Some (parsed_of fixture_307) ∧
  fst (run (matchers := constants_check_matchers) fixture_307
         new_ResistorColorDuoAnalyzer) =
  Normal (verdict_machine (fact_method F) (fact_export F)
            (mapJoinP F || reduceP F)).
Proof.
  intros mapJoinP reduceP F.
  split; [exact observes_constants_check_mapJoin|].
  split; [exact observes_constants_check_reduce|].
  split; [reflexivity|].
  exact (run_refines_verdict_machine (matchers := constants_check_matchers)
           mapJoinP reduceP fixture_307 (parsed_of fixture_307)
           new_ResistorColorDuoAnalyzer
           observes_constants_check_mapJoin observes_constants_check_reduce
           eq_refl).
Defined.

Lemma delivered_output_shape_witness :
  let out := {| status := Approved; comments := [TIP_EXPORT_INLINE] |} in
  observes
    (isOptimalMapJoinImplementation (PatternMatchers := constants_check_matchers))
    (λ F, optimal_constants (fact_constants F)) ∧
  observes
    (isOptimalReduceImplementation (PatternMatchers := constants_check_matchers))
    (λ _, false) ∧
  fst (run (matchers := constants_check_matchers) export_list_submission
         new_ResistorColorDuoAnalyzer) = Normal out ∧
  (comments out = [] ∨ comments out = [TIP_EXPORT_INLINE]).
Proof.
  intros out.
  assert (fst (run (matchers := constants_check_matchers) export_list_submission
                 new_ResistorColorDuoAnalyzer) = Normal out) as Hrun
    by (vm_compute; reflexivity).
  split; [exact observes_constants_check_mapJoin|].
  split; [exact observes_constants_check_reduce|].
  split; [exact Hrun|].
  exact (delivered_output_shape (matchers := constants_check_matchers)
           (λ F, optimal_constants (fact_constants F)) (λ _, false)
           export_list_submission new_ResistorColorDuoAnalyzer out
           observes_constants_check_mapJoin observes_constants_check_reduce
           Hrun).
Defined.

Lemma blocked_run_ignores_matchers_witness :
  let F := seen fixture_306 new_ResistorColorDuoAnalyzer in
  parse fixture_306 = Some (parsed_of fixture_306) ∧
  (structure_comments (fact_method F) (fact_export F) ≠ [] ∨
   ∃ m, fact_method F = Some m ∧ signature_comments m ≠ []) ∧
  run (matchers := source_matchers) fixture_306 new_ResistorColorDuoAnalyzer =
  run (matchers := constants_check_matchers) fixture_306
    new_ResistorColorDuoAnalyzer.
Proof.
  intros F.
  assert (structure_comments (fact_method F) (fact_export F) ≠ [] ∨
          ∃ m, fact_method F = Some m ∧ signature_comments m ≠ []) as Hblocked
    by (left; discriminate).
  split; [reflexivity|]. split; [exact Hblocked|].
  exact (blocked_run_ignores_matchers (matchers := source_matchers)
           constants_check_matchers fixture_306 (parsed_of fixture_306)
           new_ResistorColorDuoAnalyzer eq_refl Hblocked).
Defined.

Lemma structure_check_comments_witness :
  parse empty_submission = Some (parsed_of empty_submission) ∧
  analyze (matchers := source_matchers) empty_submission =
  Normal {| status := Disapproved;
            comments := [NO_METHOD {[ "method.name" := "value" ]};
                         NO_NAMED_EXPORT {[ "export.name" := "value" ]}] |}.
Proof.
  split; [reflexivity|].
  exact (proj1 (structure_check_comments (matchers := source_matchers)
                  empty_submission (parsed_of empty_submission) eq_refl)
           eq_refl eq_refl).
Defined.

Lemma signature_check_first_parameter_witness :
  let m := {| id := "value"; params := [plain "input"] |} in
  holds fixture_307 (facts_of fixture_307) (started fixture_307) ∧
  fact_method (facts_of fixture_307) = Some m ∧
  (fst (checkSignature (started fixture_307)) = Normal () ↔
   ∃ first rest, params m = first :: rest ∧ param_type first ≠ RestElement) ∧
  (fst (checkSignature (started fixture_307)) = Normal () →
   output (snd (checkSignature (started fixture_307))) =
   output (started fixture_307)).
Proof.
  intros m. split; [exact (holds_started fixture_307)|]. split; [reflexivity|].
  exact (signature_check_first_parameter fixture_307 (facts_of fixture_307)
           (started fixture_307) m (holds_started fixture_307) eq_refl).
Defined.

Lemma tips_keep_verdict_witness :
  let s := export_list_submission in
  let d := export_list ["value"] in
  holds s (facts_of s) (started s) ∧
  fact_export (facts_of s) = Some d ∧
  ∃ this',
    checkForTips (started s) = (Normal (), this') ∧
    status (output this') = status (output (started s)) ∧
    comments (output this') =
      comments (output (started s)) ++
      (if bool_decide (specifiers d = []) then [] else [TIP_EXPORT_INLINE]).
Proof.
  intros s d. split; [exact (holds_started s)|]. split; [reflexivity|].
  exact (tips_keep_verdict s (facts_of s) (started s) d (holds_started s) eq_refl).
Defined.

Lemma unguarded_checks_throw_witness :
  let s := empty_submission in
  holds s (facts_of s) (started s) ∧
  (fact_method (facts_of s) = None →
   fst (checkSignature (started s)) = Throw TypeError ∧
   output (snd (checkSignature (started s))) = output (started s)) ∧
  (fact_export (facts_of s) = None →
   fst (checkForTips (started s)) = Throw TypeError ∧
   output (snd (checkForTips (started s))) = output (started s)).
Proof.
  intros s. split; [exact (holds_started s)|].
  exact (unguarded_checks_throw s (facts_of s) (started s) (holds_started s)).
Defined.

Lemma reduce_matcher_short_circuited_witness :
  let s := fixture_307 in
  let mapJoin :=
    isOptimalMapJoinImplementation (PatternMatchers := constants_check_matchers) in
  let mapJoinP := λ F, optimal_constants (fact_constants F) in
  observes mapJoin mapJoinP ∧
  holds s (facts_of s) (started s) ∧
  mapJoinP (facts_of s) = true ∧
  checkForOptimalSolutions
    (matchers := {| isOptimalMapJoinImplementation := mapJoin;
                    isOptimalReduceImplementation := mret false |}) (started s) =
  checkForOptimalSolutions
    (matchers := {| isOptimalMapJoinImplementation := mapJoin;
                    isOptimalReduceImplementation := throw TypeError |})
    (started s).
Proof.
  intros s mapJoin mapJoinP.
  split; [exact observes_constants_check_mapJoin|].
  split; [exact (holds_started s)|]. split; [reflexivity|].
  exact (reduce_matcher_short_circuited mapJoin
           (mret false) (throw TypeError) mapJoinP s (facts_of s) (started s)
           observes_constants_check_mapJoin (holds_started s) eq_refl).
Defined.

Lemma constants_check_order_and_functions_witness :
  let functions := [const "value" EArrowFunction] in
  holds reduce_submission (facts_of reduce_submission) (started reduce_submission) ∧
  holds fixture_307 (facts_of fixture_307) (started fixture_307) ∧
  Forall (λ c, function_like (init c)) functions ∧
  fact_constants (facts_of fixture_307) ≡ₚ
    functions ++ fact_constants (facts_of reduce_submission) ∧
  fst (isUsingOptimalConstants (started fixture_307)) =
  fst (isUsingOptimalConstants (started reduce_submission)).
Proof.
  intros functions.
  assert (Forall (λ c, function_like (init c)) functions) as Hfunctions
    by (repeat constructor; by right).
  assert (fact_constants (facts_of fixture_307) ≡ₚ
          functions ++ fact_constants (facts_of reduce_submission)) as Hperm
    by (symmetry;
        exact (Permutation_cons_append
                 [const "COLORS" (EArray canonical_colors);
                  const "colorCode" EArrowFunction]
                 (const "value" EArrowFunction))).
  split; [exact (holds_started reduce_submission)|].
  split; [exact (holds_started fixture_307)|].
  split; [exact Hfunctions|]. split; [exact Hperm|].
  exact (constants_check_order_and_functions
           reduce_submission (facts_of reduce_submission) (started reduce_submission)
           fixture_307 (facts_of fixture_307) (started fixture_307) functions
           (holds_started reduce_submission) (holds_started fixture_307)
           Hfunctions Hperm).
Defined.

Lemma run_never_approves_witness :
  let out := {| status := ReferredToMentor; comments := [] |} in
  fst (run (matchers := source_matchers) fixture_307
         new_ResistorColorDuoAnalyzer) = Normal out ∧
  status out ≠ Approved ∧
  Forall is_blocking (comments out) ∧
  TIP_EXPORT_INLINE ∉ comments out.
Proof.
  intros out.
  assert (fst (run (matchers := source_matchers) fixture_307
                 new_ResistorColorDuoAnalyzer) = Normal out) as Hrun
    by (vm_compute; reflexivity).
  split; [exact Hrun|].
  exact (run_never_approves fixture_307 new_ResistorColorDuoAnalyzer out Hrun).
Defined.

Lemma reused_instance_replays_first_output_witness :
  let m := {| id := "value"; params := [plain "input"] |} in
  parse fixture_306 = Some (parsed_of fixture_306) ∧
  extractMainMethod fixture_306 "value" = Some m ∧
  parse fixture_307 = Some (parsed_of fixture_307) ∧
  fst (run (matchers := source_matchers) fixture_307
         (snd (run (matchers := source_matchers) fixture_306
                 new_ResistorColorDuoAnalyzer))) =
  analyze (matchers := source_matchers) fixture_306.
Proof.
  intros m. split_and!; [reflexivity..|].
  exact (reused_instance_replays_first_output
           fixture_306 (parsed_of fixture_306) m
           fixture_307 (parsed_of fixture_307) eq_refl eq_refl eq_refl).
Defined.

Lemma reused_instance_keeps_missing_export_witness :
  let m := {| id := "value"; params := [plain "input"] |} in
  parse empty_submission = Some (parsed_of empty_submission) ∧
  extractMainMethod empty_submission "value" = None ∧
  extractExport empty_submission "value" = None ∧
  parse fixture_307 = Some (parsed_of fixture_307) ∧
  extractMainMethod fixture_307 "value" = Some m ∧
  fst (run (matchers := source_matchers) fixture_307
         (snd (run (matchers := source_matchers) empty_submission
                 new_ResistorColorDuoAnalyzer))) =
  Normal {| status := Disapproved;
            comments := [NO_NAMED_EXPORT {[ "export.name" := "value" ]}] |}.
Proof.
  intros m. split_and!; [reflexivity..|].
  exact (reused_instance_keeps_missing_export
           empty_submission (parsed_of empty_submission)
           fixture_307 (parsed_of fixture_307) m
           eq_refl eq_refl eq_refl eq_refl eq_refl).
Defined.
